(** * ss_bike_bazar_backend: the request handlers of [index.js]

    A shallow embedding of the Express application in [src/index.js]:
    the middleware [verifyToken], the ten routes and their handlers.

    The libraries the file imports are modelled at their interface:
    - [jsonwebtoken] ([jwt.sign], [jwt.verify]) as the JWS compact form
      [header.payload.signature], over an abstract MAC and segment codec
      (class [Jwt.Jose]);
    - [bcrypt] ([bcrypt.compare]) over an abstract hash check
      (class [Bcrypt.Hasher]);
    - [pg] ([db.query]) as a class [Db.Store] of stores that execute the
      eight SQL statements of the file, with a reference store [Pg] that
      gives them their PostgreSQL meaning on in-memory tables.

    Effects are explicit: a handler is a function from the world (store,
    log of issued statements, clock) to a response and the next world.
    One request is followed at a time. The set-up around the handlers (the
    database connection, CORS, the JSON body parser, the last-resort error
    handler, [app.listen]) is outside the embedding: a request arrives with
    its headers, path parameters and a body that [express.json] has parsed
    to an object.

    A string is held as the bytes of its UTF-8 encoding. *)

From Stdlib Require Import ZArith QArith List String Ascii Bool Lia.
From Stdlib Require Import Permutation Sorted DecimalString DecimalPos.
Import ListNotations.

Close Scope Q_scope.
Open Scope string_scope.
Open Scope Z_scope.

(* ================================================================= *)
(** ** JavaScript values and the string primitives the handlers use *)

Module Js.

(** A JavaScript number as far as the handlers meet one: [NaN], an
    integer that is a double ([Int]) or an infinity, which are what
    [parseInt] returns, and a number with a fractional part, which only a
    JSON body holds and which is carried with the text
    [Number.prototype.toString] gives for it. *)
Inductive JsNum : Type :=
| NaN
| Int (z : Z)
| Infinity (negative : bool)
| Frac (text : string).

(** A value found in [req.body], [req.headers] or bound to a statement.
    An array or object is carried with the text the database driver
    serialises it to; the handlers only test it for truthiness and bind it. *)
Inductive JsVal : Type :=
| undefined
| null
| VBool (b : bool)
| VNum (n : JsNum)
| VStr (s : string)
| VObj (text : string).

(** ToBoolean: what [!v] and [a && b] test. *)
Definition truthy (v : JsVal) : bool :=
  match v with
  | undefined | null => false
  | VBool b => b
  | VNum NaN => false
  | VNum (Int z) => negb (z =? 0)
  | VNum (Infinity _) => true
  | VNum (Frac _) => true
  | VStr s => negb (s =? "")%string
  | VObj _ => true
  end.

(** A parsed JSON object: property access of a missing key is [undefined]. *)
Definition Object := list (string * JsVal).

Fixpoint get (o : Object) (k : string) : JsVal :=
  match o with
  | [] => undefined
  | (k', v) :: o' => if (k' =? k)%string then v else get o' k
  end.

(** [s.split(sep)] for a one-character separator. *)
Fixpoint split (sep : ascii) (s : string) : list string :=
  match s with
  | EmptyString => [EmptyString]
  | String c r =>
      if Ascii.eqb c sep then EmptyString :: split sep r
      else match split sep r with
           | x :: xs => String c x :: xs
           | [] => [String c EmptyString]
           end
  end.

(** [v.split(sep)[i]] on a string value. *)
Definition split_index (v : JsVal) (sep : ascii) (i : nat) : JsVal :=
  match v with
  | VStr s => match nth_error (split sep s) i with
              | Some t => VStr t
              | None => undefined
              end
  | _ => undefined
  end.

Definition byte (c : ascii) : Z := Z.of_N (N_of_ascii c).

(** The white space and line terminators of ECMAScript, which [parseInt]
    and [String.prototype.trim] skip. Those of one byte: TAB, LF, VT, FF,
    CR, SP. *)
Definition is_space (c : ascii) : bool :=
  ((9 <=? byte c) && (byte c <=? 13)) || (byte c =? 32).

(** U+00A0, in two bytes. *)
Definition is_space2 (c1 c2 : ascii) : bool :=
  (byte c1 =? 194) && (byte c2 =? 160).

(** U+1680; U+2000 to U+200A, U+2028, U+2029, U+202F; U+205F; U+3000;
    U+FEFF: each in three bytes. *)
Definition is_space3 (c1 c2 c3 : ascii) : bool :=
  ((byte c1 =? 225) && (byte c2 =? 154) && (byte c3 =? 128))
  || ((byte c1 =? 226) && (byte c2 =? 128)
      && (((128 <=? byte c3) && (byte c3 <=? 138))
          || (byte c3 =? 168) || (byte c3 =? 169) || (byte c3 =? 175)))
  || ((byte c1 =? 226) && (byte c2 =? 129) && (byte c3 =? 159))
  || ((byte c1 =? 227) && (byte c2 =? 128) && (byte c3 =? 128))
  || ((byte c1 =? 239) && (byte c2 =? 187) && (byte c3 =? 191)).

(** The string without the white space at its start. *)
Fixpoint trim_start (s : string) : string :=
  match s with
  | EmptyString => s
  | String c1 r1 =>
      if is_space c1 then trim_start r1
      else match r1 with
           | EmptyString => s
           | String c2 r2 =>
               if is_space2 c1 c2 then trim_start r2
               else match r2 with
                    | EmptyString => s
                    | String c3 r3 =>
                        if is_space3 c1 c2 c3 then trim_start r3 else s
                    end
           end
  end.

(** [s.trim() === ""]: nothing but white space. *)
Definition blank (s : string) : bool := (trim_start s =? "")%string.

(** Value of a digit in the given radix (up to 16). *)
Definition digit_value (radix : Z) (c : ascii) : option Z :=
  let n := byte c in
  let d :=
    if (48 <=? n) && (n <=? 57) then Some (n - 48)
    else if (97 <=? n) && (n <=? 102) then Some (n - 87)
    else if (65 <=? n) && (n <=? 70) then Some (n - 55)
    else None in
  match d with
  | Some v => if v <? radix then Some v else None
  | None => None
  end.

(** Reads the longest prefix of digits: its value and what follows it. *)
Fixpoint read_digits (radix : Z) (acc : Z) (s : string) : Z * string :=
  match s with
  | EmptyString => (acc, EmptyString)
  | String c r =>
      match digit_value radix c with
      | Some d => read_digits radix (radix * acc + d) r
      | None => (acc, s)
      end
  end.

Definition starts_with_digit (radix : Z) (s : string) : bool :=
  match s with
  | String c _ => match digit_value radix c with Some _ => true | None => false end
  | EmptyString => false
  end.

(** An optional sign in front: its value and what follows it. *)
Definition strip_sign (s : string) : Z * string :=
  match s with
  | String "-" r => (-1, r)
  | String "+" r => (1, r)
  | _ => (1, s)
  end.

(** The largest integer up to which every integer is a double: 2^53. *)
Definition two53 : Z := 9007199254740992.

(** The double nearest to a non-negative integer, ties to the even
    mantissa of 53 bits. No double is as large as 2^1024: a result that
    large stands for the infinity. *)
Definition round_double (a : Z) : Z :=
  if a <=? two53 then a
  else let e := Z.log2 a - 52 in
       let q := Z.shiftr a e in
       let r := a - Z.shiftl q e in
       let half := Z.shiftl 1 (e - 1) in
       let q' := if (half <? r) || ((r =? half) && Z.odd q) then q + 1 else q in
       Z.shiftl q' e.

(** The Number value of a mathematical integer. *)
Definition to_number (z : Z) : JsNum :=
  let v := round_double (Z.abs z) in
  if Z.shiftl 1 1024 <=? v then Infinity (z <? 0) else Int (Z.sgn z * v).

(** [parseInt(s)] with no radix argument: leading white space, a sign,
    a [0x]/[0X] prefix, then the longest run of digits; [NaN] when there
    is no digit. Whatever follows the digits is ignored. The result is a
    Number, the double nearest to the integer read. *)
Definition parseInt (s : string) : JsNum :=
  let '(sign, s2) := strip_sign (trim_start s) in
  let '(radix, s3) :=
    match s2 with
    | String "0" (String "x" r) => (16, r)
    | String "0" (String "X" r) => (16, r)
    | _ => (10, s2)
    end in
  if starts_with_digit radix s3
  then to_number (sign * fst (read_digits radix 0 s3))
  else NaN.

(** Whether a character occurs in a string. *)
Fixpoint has_char (c : ascii) (s : string) : bool :=
  match s with
  | EmptyString => false
  | String d r => Ascii.eqb d c || has_char c r
  end.

(** One bit of a byte turned over, and a string with its [i]-th byte so
    changed. *)
Definition flip_bit (c : ascii) : ascii :=
  match c with
  | Ascii b0 b1 b2 b3 b4 b5 b6 b7 => Ascii (negb b0) b1 b2 b3 b4 b5 b6 b7
  end.

Fixpoint flip_byte (i : nat) (s : string) : string :=
  match s, i with
  | EmptyString, _ => EmptyString
  | String c r, O => String (flip_bit c) r
  | String c r, S j => String c (flip_byte j r)
  end.

(** An integer in decimal digits, with [-] in front when negative. *)
Definition decimal (z : Z) : string := NilZero.string_of_int (Z.to_int z).

(** Nothing but decimal digits. *)
Fixpoint digit_string (s : string) : bool :=
  match s with
  | EmptyString => true
  | String c r => match digit_value 10 c with
                  | Some _ => digit_string r
                  | None => false
                  end
  end.

Fixpoint zeros (n : nat) : string :=
  match n with
  | O => EmptyString
  | S m => String "0" (zeros m)
  end.

(** [Number.prototype.toString] writes a double [x] beyond 2^53 with the
    fewest digits that still denote it: digits [s], [k] of them, and a
    power [e] of ten such that [x] is the double nearest to [s * 10^e].
    The candidates with [k] digits for an [x] of [m] decimal digits: *)
Definition candidates (x k m : Z) : list (Z * Z) :=
  filter (fun c : Z * Z =>
            let (s, e) := c in
            (0 <=? e) && (10 ^ (k - 1) <=? s) && (s <? 10 ^ k)
            && (round_double (s * 10 ^ e) =? x))
         [(x / 10 ^ (m - k), m - k); (x / 10 ^ (m - k) + 1, m - k);
          (x / 10 ^ (m + 1 - k), m + 1 - k);
          (x / 10 ^ (m + 1 - k) + 1, m + 1 - k)].

Definition distance (x : Z) (c : Z * Z) : Z := Z.abs (fst c * 10 ^ snd c - x).

(** Of two candidates the one nearer to [x]; the even one when as near. *)
Definition closer (x : Z) (c d : Z * Z) : Z * Z :=
  if (distance x d <? distance x c)
     || ((distance x d =? distance x c) && Z.even (fst d))
  then d else c.

Definition closest (x : Z) (l : list (Z * Z)) : option (Z * Z) :=
  match l with
  | [] => None
  | c :: l' => Some (fold_left (closer x) l' c)
  end.

(** The first number of digits, from [k] on, that has a candidate.
    Seventeen digits tell any two doubles apart. *)
Fixpoint shortest (fuel : nat) (k x m : Z) : option (Z * Z) :=
  match fuel with
  | O => None
  | S f => match closest x (candidates x k m) with
           | Some c => Some c
           | None => shortest f (k + 1) x m
           end
  end.

(** The text of a double beyond 2^53: the digits followed by zeros while
    the number has at most 21 digits, and [d.ddde+n] from 1e21 on. *)
Definition big_text (x : Z) : string :=
  match shortest 17 1 x (Z.of_nat (String.length (decimal x))) with
  | Some (s, e) =>
      let n := Z.of_nat (String.length (decimal s)) + e in
      if n <=? 21 then decimal s ++ zeros (Z.to_nat e)
      else match decimal s with
           | String d EmptyString => String d ("e+" ++ decimal (n - 1))
           | String d r => String d ("." ++ r ++ "e+" ++ decimal (n - 1))
           | EmptyString => EmptyString
           end
  | None => decimal x
  end.

(** [Number.prototype.toString] on the numbers above. Up to 2^53 the
    fewest digits are all the digits. *)
Definition num_to_string (n : JsNum) : string :=
  match n with
  | NaN => "NaN"
  | Int z => if Z.abs z <=? two53 then decimal z
             else if z <? 0 then String "-" (big_text (- z))
             else big_text z
  | Infinity negative => if negative then "-Infinity" else "Infinity"
  | Frac text => text
  end.

End Js.

(** JSON values: response bodies and token payloads. A number that is
    not an integer is carried with its JSON text. *)
#[local] Unset Elimination Schemes.
Inductive Json : Type :=
| JNull
| JBool (b : bool)
| JNum (z : Z)
| JFrac (text : string)
| JStr (s : string)
| JArr (items : list Json)
| JObj (fields : list (string * Json)).
#[local] Set Elimination Schemes.

(** What [res.status(code).json(body)] sends. *)
Record Response : Type := {
  status : Z;
  body_of : Json
}.

Definition error_body (msg : string) : Json := JObj [("error", JStr msg)].

(* ================================================================= *)
(** ** jsonwebtoken: [jwt.sign] and [jwt.verify] with a string secret *)

Module Jwt.
Import Js.

(** The claims of the payload the program issues: [userId] and [username]
    from the call of [jwt.sign], [iat] and [exp] added by it. *)
Record Claims : Type := {
  userId : Z;
  username : string;
  iat : Z;
  exp : option Z
}.

Definition claims_json (c : Claims) : Json :=
  JObj ([("userId", JNum (userId c)); ("username", JStr (username c));
         ("iat", JNum (iat c))]
        ++ match exp c with
           | Some e => [("exp", JNum e)]
           | None => []
           end).

(** A registered time claim ([nbf], [exp]) as [jwt.verify] reads it off a
    decoded payload: not there ([typeof] is [undefined]), there but not a
    number, or a number, which after [JSON.parse] is a finite double or an
    infinity. *)
Inductive NumericDate : Type :=
| Absent
| NotNumber
| Finite (seconds : Q)
| Infinite (negative : bool).

(** Any payload, as [jwt.verify] decodes it and hands it back: the value
    itself and the two claims that [jwt.verify] checks when it is given no
    options. *)
Record Payload : Type := {
  content : Json;
  not_before : NumericDate;
  expires : NumericDate
}.

(** The payload of a token the program issued. *)
Definition issued_payload (c : Claims) : Payload :=
  {| content := claims_json c;
     not_before := Absent;
     expires := match exp c with
                | Some e => Finite (inject_Z e)
                | None => Absent
                end |}.

Definition b64url_char (c : ascii) : bool :=
  let n := byte c in
  ((65 <=? n) && (n <=? 90)) || ((97 <=? n) && (n <=? 122))
  || ((48 <=? n) && (n <=? 57)) || (n =? 45) || (n =? 95).

Fixpoint b64url (s : string) : bool :=
  match s with
  | EmptyString => true
  | String c r => b64url_char c && b64url r
  end.

(** The cryptography and the encoding of segments, with the facts about
    them that the token format rests on: segments and signatures are
    base64url text, and the payload of an issued token decodes to the
    claims that were encoded. *)
Class Jose : Type := {
  (** [mac alg key input]: base64url of the HMAC of [input] under [key]. *)
  mac : string -> string -> string -> string;
  (** The [alg] of a protected header segment, when it decodes. *)
  header_alg : string -> option string;
  (** base64url of the header [jwt.sign] writes: alg HS256, typ JWT. *)
  header_HS256 : string;
  encode_payload : Claims -> string;
  decode_payload : string -> option Payload;
  mac_b64url : forall alg key input, b64url (mac alg key input) = true;
  mac_nonempty : forall alg key input, mac alg key input <> "";
  header_HS256_b64url : b64url header_HS256 = true;
  header_HS256_alg : header_alg header_HS256 = Some "HS256";
  encode_payload_b64url : forall c, b64url (encode_payload c) = true;
  decode_encode_payload :
    forall c, decode_payload (encode_payload c) = Some (issued_payload c)
}.

(** What [jwt.verify] throws. *)
Inductive Error : Type :=
| JwtMustBeProvided
| JwtMustBeString
| JwtMalformed
| InvalidToken
| SignatureRequired
| InvalidAlgorithm
| InvalidSignature
| InvalidNbfValue
| NotActive
| InvalidExpValue
| TokenExpired.

Inductive Verified : Type :=
| Decoded (payload : Payload)
| Thrown (e : Error).

(** Algorithms accepted for a secret given as a string (one that is not
    the PEM text of a public key). *)
Definition HS_ALGS : list string := ["HS256"; "HS384"; "HS512"].

Definition allowed (alg : string) : bool := existsb (String.eqb alg) HS_ALGS.

(** [expiresIn: "1d"], in seconds. *)
Definition one_day : Z := 86400.

(** [payload.nbf > clockTimestamp], and what it throws on a claim that
    is no number. *)
Definition checked_nbf (d : NumericDate) (now : Z) : option Error :=
  match d with
  | Absent => None
  | NotNumber => Some InvalidNbfValue
  | Finite seconds => if Qle_bool seconds (inject_Z now) then None else Some NotActive
  | Infinite negative => if negative then None else Some NotActive
  end.

(** [clockTimestamp >= payload.exp], and what it throws on a claim that
    is no number. *)
Definition checked_exp (d : NumericDate) (now : Z) : option Error :=
  match d with
  | Absent => None
  | NotNumber => Some InvalidExpValue
  | Finite seconds => if Qle_bool seconds (inject_Z now) then Some TokenExpired else None
  | Infinite negative => if negative then Some TokenExpired else None
  end.

Section WithJose.
Context {J : Jose}.

(** [jwt.sign({ userId, username }, secret, { expiresIn })] at time [now]
    (seconds): [iat] is the time of issue and [exp = iat + expiresIn]. *)
Definition sign (uid : Z) (uname : string) (secret : string)
                (expiresIn : Z) (now : Z) : string :=
  let payload := {| userId := uid; username := uname;
                    iat := now; exp := Some (now + expiresIn) |} in
  let input := header_HS256 ++ "." ++ encode_payload payload in
  input ++ "." ++ mac "HS256" secret input.

(** [jwt.verify(token, secret)] at time [now] (seconds), with no options:
    the token is split and decoded, the signature is checked under an
    accepted algorithm, then [nbf] and [exp]. *)
Definition verify (token : JsVal) (secret : string) (now : Z) : Verified :=
  if negb (truthy token) then Thrown JwtMustBeProvided
  else match token with
  | VStr jwtString =>
      match split "." jwtString with
      | [h; p; s] =>
          match header_alg h, decode_payload p with
          | Some alg, Some payload =>
              if blank s then Thrown SignatureRequired
              else if negb (allowed alg) then Thrown InvalidAlgorithm
              else if negb (s =? mac alg secret (h ++ "." ++ p))%string
                   then Thrown InvalidSignature
              else match checked_nbf (not_before payload) now with
                   | Some e => Thrown e
                   | None =>
                       match checked_exp (expires payload) now with
                       | Some e => Thrown e
                       | None => Decoded payload
                       end
                   end
          | _, _ => Thrown InvalidToken
          end
      | _ => Thrown JwtMalformed
      end
  | _ => Thrown JwtMustBeString
  end.

(** The conditions of acceptance, each read off the token text. *)
Definition segments (t : string) : option (string * string * string) :=
  match split "." t with
  | [h; p; s] => Some (h, p, s)
  | _ => None
  end.

Definition payload_of (t : string) : option Payload :=
  match segments t with
  | Some (_, p, _) => decode_payload p
  | None => None
  end.

(** Three segments: a header that names an algorithm, a payload that
    decodes, a signature that is not blank. *)
Definition well_formed (t : string) : bool :=
  match segments t with
  | Some (h, p, s) =>
      match header_alg h, decode_payload p with
      | Some _, Some _ => negb (blank s)
      | _, _ => false
      end
  | None => false
  end.

(** The signature is the MAC of the first two segments under the secret,
    by an accepted algorithm. *)
Definition signature_matches (secret t : string) : bool :=
  match segments t with
  | Some (h, p, s) =>
      match header_alg h with
      | Some alg => allowed alg && (s =? mac alg secret (h ++ "." ++ p))%string
      | None => false
      end
  | None => false
  end.

(** The payload has an expiry time and the clock has reached it. *)
Definition expiry_passed (now : Z) (t : string) : bool :=
  match payload_of t with
  | Some p => match checked_exp (expires p) now with
              | Some TokenExpired => true
              | _ => false
              end
  | None => false
  end.

(** The payload has a not-before time and the clock is still below it. *)
Definition not_yet_active (now : Z) (t : string) : bool :=
  match payload_of t with
  | Some p => match checked_nbf (not_before p) now with
              | Some NotActive => true
              | _ => false
              end
  | None => false
  end.

(** The payload has an [nbf] or an [exp] that is not a number. *)
Definition ill_typed_dates (t : string) : bool :=
  match payload_of t with
  | Some p => match not_before p, expires p with
              | NotNumber, _ | _, NotNumber => true
              | _, _ => false
              end
  | None => false
  end.

(** All the conditions together. *)
Definition acceptable (secret : string) (now : Z) (t : string) : bool :=
  well_formed t && signature_matches secret t
  && negb (ill_typed_dates t) && negb (not_yet_active now t)
  && negb (expiry_passed now t).

End WithJose.

End Jwt.

(* ================================================================= *)
(** ** bcrypt: [bcrypt.compare] *)

Module Bcrypt.
Import Js.

Class Hasher : Type := {
  (** Whether the password hashes to the stored hash. *)
  matches : string -> string -> bool
}.

(** [await bcrypt.compare(data, hash)]: [None] when the promise rejects,
    which it does unless both arguments are strings. *)
Definition compare {H : Hasher} (data hash : JsVal) : option bool :=
  match data, hash with
  | VStr d, VStr h => Some (matches d h)
  | _, _ => None
  end.

End Bcrypt.

(* ================================================================= *)
(** ** The tables and the statements sent through [db.query] *)

Definition nullable (v : option string) : Json :=
  match v with
  | Some s => JStr s
  | None => JNull
  end.

Module Admin.
Record t : Type := {
  id : Z;
  username : string;
  password : string
}.
End Admin.

Module Bike.
Record t : Type := {
  id : Z;
  url : option string;
  name : option string;
  model : option string;
  engine : option string;
  fuel : option string;
  color : option string;
  warranty : option string
}.

Definition json (b : t) : Json :=
  JObj [("id", JNum (id b)); ("url", nullable (url b));
        ("name", nullable (name b)); ("model", nullable (model b));
        ("engine", nullable (engine b)); ("fuel", nullable (fuel b));
        ("color", nullable (color b)); ("warranty", nullable (warranty b))].
End Bike.

Module Contact.
Record t : Type := {
  id : Z;
  name : option string;
  phone : option string;
  email : option string;
  query : option string;
  submitted_at : Z
}.

Definition json (c : t) : Json :=
  JObj [("id", JNum (id c)); ("name", nullable (name c));
        ("phone", nullable (phone c)); ("email", nullable (email c));
        ("query", nullable (query c)); ("submitted_at", JNum (submitted_at c))].
End Contact.

Module Db.
Import Js.

(** The eight statements of [index.js], indexed by the row type of the
    table they return rows of. *)
Inductive Sql : Type -> Type :=
| SelectAdminByUsername : Sql Admin.t
| InsertBike : Sql Bike.t
| UpdateBike : Sql Bike.t
| SelectBikes : Sql Bike.t
| SelectBikeById : Sql Bike.t
| DeleteBike : Sql Bike.t
| InsertContact : Sql Contact.t
| SelectContactsNewestFirst : Sql Contact.t.

Definition text {R : Type} (q : Sql R) : string :=
  match q with
  | SelectAdminByUsername =>
      "SELECT * FROM admins WHERE LOWER(username) = LOWER($1)"
  | InsertBike =>
      "INSERT INTO bikes (url, name, model, engine, fuel, color, warranty) VALUES ($1, $2, $3, $4, $5, $6, $7) RETURNING *"
  | UpdateBike =>
      "UPDATE bikes SET url = $1, name = $2, model = $3, engine = $4, fuel = $5, color = $6, warranty = $7 WHERE id = $8 RETURNING *"
  | SelectBikes => "SELECT * FROM bikes"
  | SelectBikeById => "SELECT * FROM bikes WHERE id = $1"
  | DeleteBike => "DELETE FROM bikes WHERE id = $1 RETURNING *"
  | InsertContact =>
      "INSERT INTO contact_submissions (name, phone, email, query) VALUES ($1, $2, $3, $4) RETURNING *"
  | SelectContactsNewestFirst =>
      "SELECT * FROM contact_submissions ORDER BY submitted_at DESC"
  end.

(** [await db.query(...)]: [result.rows], or the promise rejects. *)
Inductive Result (R : Type) : Type :=
| Rows (rows : list R)
| Throws.
Arguments Rows {R} rows.
Arguments Throws {R}.

(** A store executes a statement with its bound values. *)
Class Store (S : Type) : Type := {
  run : forall R : Type, Sql R -> list JsVal -> S -> Result R * S
}.
Arguments run {S _ R} _ _ _.

(** One issued statement, as the log keeps it. *)
Definition Issued : Type := string * list JsVal.

(** The process-wide state a request runs in. *)
Record World (S : Type) : Type := {
  store : S;
  issued : list Issued;
  clock : Z
}.
Arguments store {S} _.
Arguments issued {S} _.
Arguments clock {S} _.

(** [db.query(sql, values)]: the statement is logged and executed. *)
Definition query {S : Type} {ST : Store S} {R : Type}
    (q : Sql R) (values : list JsVal) (w : World S) : Result R * World S :=
  let '(r, s') := run q values (store w) in
  (r, {| store := s'; issued := issued w ++ [(text q, values)]; clock := clock w |}).

End Db.

(* ================================================================= *)
(** ** Reference store: the statements on PostgreSQL tables

    The schema is not part of the repository. The reference store takes
    the [id] columns to be of type [integer] (32 bits) and assigned from
    a sequence, the other columns to be nullable text, and [submitted_at]
    to be stamped by the store on insert. Values are bound the way [pg]
    sends them, as text, and an [id] is read from its text as PostgreSQL
    16 and later read an [integer]. A table is a set of rows: the order
    of the list that holds it means nothing, and a [SELECT] without
    [ORDER BY] returns the rows in an order of the store's choosing. *)

Module Pg.
Import Js Db.

Record t : Type := {
  admins : list Admin.t;
  bikes : list Bike.t;
  bikes_id_seq : Z;
  contact_submissions : list Contact.t;
  contact_submissions_id_seq : Z;
  now : Z;
  (** The order in which a scan returns the rows of [bikes]. *)
  scan : list Bike.t -> list Bike.t;
  scan_permutes : forall l, Permutation l (scan l)
}.

(** How [pg] serialises a bound value; [None] is SQL NULL. *)
Definition text_of (v : JsVal) : option string :=
  match v with
  | undefined | null => None
  | VBool true => Some "true"
  | VBool false => Some "false"
  | VNum n => Some (num_to_string n)
  | VStr s => Some s
  | VObj text => Some text
  end.

Definition lower_char (c : ascii) : ascii :=
  let n := nat_of_ascii c in
  if ((65 <=? n) && (n <=? 90))%nat then ascii_of_nat (n + 32) else c.

(** [LOWER(s)] on ASCII letters. *)
Fixpoint lower (s : string) : string :=
  match s with
  | EmptyString => EmptyString
  | String c r => String (lower_char c) (lower r)
  end.

(** [isspace] of C. *)
Definition isspace (c : ascii) : bool :=
  ((9 <=? byte c) && (byte c <=? 13)) || (byte c =? 32).

Fixpoint skip_spaces (s : string) : string :=
  match s with
  | String c r => if isspace c then skip_spaces r else s
  | EmptyString => s
  end.

Fixpoint only_spaces (s : string) : bool :=
  match s with
  | String c r => isspace c && only_spaces r
  | EmptyString => true
  end.

(** The digits of an integer in one radix, where a single [_] may stand
    before a digit (in decimal, not before the first one): the value read
    on top of [acc], what follows, and whether anything was read. [None]
    is a [_] out of place. *)
Fixpoint digits (radix : Z) (in_decimal : bool) (seen : bool) (acc : Z) (s : string)
    : option (Z * string * bool) :=
  match s with
  | EmptyString => Some (acc, s, seen)
  | String c r =>
      match digit_value radix c with
      | Some d => digits radix in_decimal true (radix * acc + d) r
      | None =>
          if Ascii.eqb c "_"
          then if in_decimal && negb seen then None
               else match r with
                    | String c' _ =>
                        match digit_value radix c' with
                        | Some _ => digits radix in_decimal true acc r
                        | None => None
                        end
                    | EmptyString => None
                    end
          else Some (acc, s, seen)
      end
  end.

(** The radix a prefix [0x], [0o] or [0b] (in either case) announces. *)
Definition prefix_radix (c : ascii) : option Z :=
  if Ascii.eqb c "x" || Ascii.eqb c "X" then Some 16
  else if Ascii.eqb c "o" || Ascii.eqb c "O" then Some 8
  else if Ascii.eqb c "b" || Ascii.eqb c "B" then Some 2
  else None.

(** The digits of an integer and what may follow them: the digits in
    decimal, or after a prefix in hexadecimal, octal or binary, at least
    one of them, and then spaces to the end. *)
Definition unsigned_syntax (s : string) : option Z :=
  let read :=
    match s with
    | String "0" (String c r) =>
        match prefix_radix c with
        | Some radix => digits radix false false 0 r
        | None => digits 10 true false 0 s
        end
    | _ => digits 10 true false 0 s
    end in
  match read with
  | Some (magnitude, rest, true) => if only_spaces rest then Some magnitude else None
  | _ => None
  end.

(** The text of an integer as the input function of the integer types
    reads it: spaces, a sign, and the digits as above. The result is
    whether there is a [-] and the magnitude; [None] is the error
    [invalid input syntax for type integer]. *)
Definition integer_syntax (s : string) : option (bool * Z) :=
  let s1 := skip_spaces s in
  let '(negative, s2) :=
    match s1 with
    | String "-" r => (true, r)
    | String "+" r => (false, r)
    | _ => (false, s1)
    end in
  match unsigned_syntax s2 with
  | Some magnitude => Some (negative, magnitude)
  | None => None
  end.

(** Whether a text is an integer in that syntax, whatever its size. *)
Definition integer_literal (s : string) : bool :=
  match integer_syntax s with
  | Some _ => true
  | None => false
  end.

(** The values of the type [integer]. *)
Definition in_int4 (z : Z) : bool := (-2147483648 <=? z) && (z <=? 2147483647).

(** Input of an [integer] column: the integer the text denotes; [None]
    is one of the errors [invalid input syntax for type integer] and
    [value is out of range for type integer]. *)
Definition int4in (s : string) : option Z :=
  match integer_syntax s with
  | Some (negative, magnitude) =>
      let z := if negative then - magnitude else magnitude in
      if in_int4 z then Some z else None
  | None => None
  end.

(** A value bound where an [id] is compared. *)
Inductive IdParam : Type :=
| IdNull
| IdValue (z : Z)
| IdInvalid.

Definition id_param (v : JsVal) : IdParam :=
  match text_of v with
  | None => IdNull
  | Some s => match int4in s with
              | Some z => IdValue z
              | None => IdInvalid
              end
  end.

Definition has_id (z : Z) (b : Bike.t) : bool := Bike.id b =? z.

(** [b] was not submitted after [a]. *)
Definition not_older (a b : Contact.t) : Prop :=
  Contact.submitted_at b <= Contact.submitted_at a.

(** [a] was submitted after [b]. *)
Definition newer (a b : Contact.t) : Prop :=
  Contact.submitted_at b < Contact.submitted_at a.

Fixpoint insert_newest_first (c : Contact.t) (l : list Contact.t) : list Contact.t :=
  match l with
  | [] => [c]
  | d :: l' =>
      if Contact.submitted_at d <? Contact.submitted_at c
      then c :: l
      else d :: insert_newest_first c l'
  end.

(** [ORDER BY submitted_at DESC]. *)
Definition order_by_submitted_at_desc (l : list Contact.t) : list Contact.t :=
  fold_right insert_newest_first [] l.

Definition set_bikes (db : t) (l : list Bike.t) (seq : Z) : t :=
  {| admins := admins db; bikes := l; bikes_id_seq := seq;
     contact_submissions := contact_submissions db;
     contact_submissions_id_seq := contact_submissions_id_seq db;
     now := now db; scan := scan db; scan_permutes := scan_permutes db |}.

Definition set_contact_submissions (db : t) (l : list Contact.t) (seq : Z) : t :=
  {| admins := admins db; bikes := bikes db; bikes_id_seq := bikes_id_seq db;
     contact_submissions := l; contact_submissions_id_seq := seq;
     now := now db; scan := scan db; scan_permutes := scan_permutes db |}.

(** Execution of a statement. A wrong number of bound values and a value
    an [integer] column cannot read make the statement fail. *)
Definition exec {R : Type} (q : Sql R) (values : list JsVal) (db : t)
    : Result R * t :=
  match q in Sql R0 return Result R0 * t with
  | SelectAdminByUsername =>
      match values with
      | [u] =>
          match text_of u with
          | Some name =>
              (Rows (filter (fun a => (lower (Admin.username a) =? lower name)%string)
                            (admins db)), db)
          | None => (Rows [], db)
          end
      | _ => (Throws, db)
      end
  | InsertBike =>
      match values with
      | [u; n; m; e; f; c; w] =>
          let row := {| Bike.id := bikes_id_seq db;
                        Bike.url := text_of u; Bike.name := text_of n;
                        Bike.model := text_of m; Bike.engine := text_of e;
                        Bike.fuel := text_of f; Bike.color := text_of c;
                        Bike.warranty := text_of w |} in
          (Rows [row], set_bikes db (bikes db ++ [row]) (bikes_id_seq db + 1))
      | _ => (Throws, db)
      end
  | UpdateBike =>
      match values with
      | [u; n; m; e; f; c; w; i] =>
          match id_param i with
          | IdInvalid => (Throws, db)
          | IdNull => (Rows [], db)
          | IdValue z =>
              let row := {| Bike.id := z;
                            Bike.url := text_of u; Bike.name := text_of n;
                            Bike.model := text_of m; Bike.engine := text_of e;
                            Bike.fuel := text_of f; Bike.color := text_of c;
                            Bike.warranty := text_of w |} in
              (Rows (map (fun _ => row) (filter (has_id z) (bikes db))),
               set_bikes db (map (fun b => if has_id z b then row else b) (bikes db))
                         (bikes_id_seq db))
          end
      | _ => (Throws, db)
      end
  | SelectBikes =>
      match values with
      | [] => (Rows (scan db (bikes db)), db)
      | _ => (Throws, db)
      end
  | SelectBikeById =>
      match values with
      | [i] =>
          match id_param i with
          | IdInvalid => (Throws, db)
          | IdNull => (Rows [], db)
          | IdValue z => (Rows (filter (has_id z) (bikes db)), db)
          end
      | _ => (Throws, db)
      end
  | DeleteBike =>
      match values with
      | [i] =>
          match id_param i with
          | IdInvalid => (Throws, db)
          | IdNull => (Rows [], db)
          | IdValue z =>
              (Rows (filter (has_id z) (bikes db)),
               set_bikes db (filter (fun b => negb (has_id z b)) (bikes db))
                         (bikes_id_seq db))
          end
      | _ => (Throws, db)
      end
  | InsertContact =>
      match values with
      | [n; p; e; q'] =>
          let row := {| Contact.id := contact_submissions_id_seq db;
                        Contact.name := text_of n; Contact.phone := text_of p;
                        Contact.email := text_of e; Contact.query := text_of q';
                        Contact.submitted_at := now db |} in
          (Rows [row],
           set_contact_submissions db (contact_submissions db ++ [row])
                                   (contact_submissions_id_seq db + 1))
      | _ => (Throws, db)
      end
  | SelectContactsNewestFirst =>
      match values with
      | [] => (Rows (order_by_submitted_at_desc (contact_submissions db)), db)
      | _ => (Throws, db)
      end
  end.

#[export] Instance store : Store t := {| run := @exec |}.

(** The row an insert or update of a listing writes for a request body,
    and the row an insert of a contact submission writes. *)
Definition listing (z : Z) (b : Object) : Bike.t :=
  {| Bike.id := z;
     Bike.url := text_of (get b "url"); Bike.name := text_of (get b "name");
     Bike.model := text_of (get b "model"); Bike.engine := text_of (get b "engine");
     Bike.fuel := text_of (get b "fuel"); Bike.color := text_of (get b "color");
     Bike.warranty := text_of (get b "warranty") |}.

Definition submission (z at_time : Z) (b : Object) : Contact.t :=
  {| Contact.id := z;
     Contact.name := text_of (get b "name"); Contact.phone := text_of (get b "phone");
     Contact.email := text_of (get b "email"); Contact.query := text_of (get b "query");
     Contact.submitted_at := at_time |}.

(** A listing, a submission, a database without a NULL field. *)
Definition bike_complete (b : Bike.t) : Prop :=
  Bike.url b <> None /\ Bike.name b <> None /\ Bike.model b <> None
  /\ Bike.engine b <> None /\ Bike.fuel b <> None /\ Bike.color b <> None
  /\ Bike.warranty b <> None.

Definition contact_complete (c : Contact.t) : Prop :=
  Contact.name c <> None /\ Contact.phone c <> None
  /\ Contact.email c <> None /\ Contact.query c <> None.

Definition complete (db : t) : Prop :=
  Forall bike_complete (bikes db) /\ Forall contact_complete (contact_submissions db).

(** What a request can do to the tables of the reference store. *)
Inductive Change (db : t) (st : Z) : t -> Prop :=
| Unchanged : Change db st db
| BikeCreated (row : Bike.t) :
    st = 201 -> bike_complete row -> Bike.id row = bikes_id_seq db ->
    Change db st (set_bikes db (bikes db ++ [row]) (bikes_id_seq db + 1))
| BikeUpdated (z : Z) (row : Bike.t) :
    st = 200 -> bike_complete row -> Bike.id row = z ->
    Change db st (set_bikes db
                    (map (fun b => if has_id z b then row else b) (bikes db))
                    (bikes_id_seq db))
| BikeDeleted (z : Z) :
    st = 200 ->
    Change db st (set_bikes db
                    (filter (fun b => negb (has_id z b)) (bikes db))
                    (bikes_id_seq db))
| ContactCreated (row : Contact.t) :
    st = 201 -> contact_complete row ->
    Change db st (set_contact_submissions db
                    (contact_submissions db ++ [row])
                    (contact_submissions_id_seq db + 1)).

(** The ids of the listings are distinct and below the next value of the
    sequence. *)
Definition ids_in_order (db : t) : Prop :=
  NoDup (map Bike.id (bikes db))
  /\ Forall (fun b => Bike.id b < bikes_id_seq db) (bikes db).

End Pg.

(* ================================================================= *)
(** ** index.js: the middleware, the handlers and the routes *)

Module Server.
Import Js Db.

(** [req.params] of the routes with an [:id] segment. *)
Record Params : Type := {
  id : string
}.

(** A request as a handler sees it; header names are in lower case, as
    Node delivers them. *)
Record Request : Type := {
  headers : list (string * string);
  params : Params;
  body : Object;
  user : option Jwt.Payload
}.

(** [req.headers[name]]. *)
Fixpoint header (hs : list (string * string)) (name : string) : JsVal :=
  match hs with
  | [] => undefined
  | (k, v) :: hs' => if (k =? name)%string then VStr v else header hs' name
  end.

Definition set_user (req : Request) (decoded : Jwt.Payload) : Request :=
  {| headers := headers req; params := params req; body := body req;
     user := Some decoded |}.

Definition json (code : Z) (b : Json) : Response :=
  {| status := code; body_of := b |}.

Section App.

Context {S : Type} {ST : Store S} {H : Bcrypt.Hasher} {J : Jwt.Jose}.

(** [process.env.JWT_SECRET]. *)
Variable env_JWT_SECRET : option string.

Definition Handler : Type := World S -> Response * World S.

(** [const JWT_SECRET = process.env.JWT_SECRET || "default_secret_key"]. *)
Definition JWT_SECRET : string :=
  match env_JWT_SECRET with
  | Some s => if (s =? "")%string then "default_secret_key" else s
  | None => "default_secret_key"
  end.

(** [authHeader && authHeader.split(" ")[1]], the token of [verifyToken]. *)
Definition bearer (req : Request) : JsVal :=
  let authHeader := header (headers req) "authorization" in
  if truthy authHeader then split_index authHeader " " 1 else authHeader.

(** Middleware to verify JWT token. *)
Definition verifyToken (req : Request) (next : Request -> Handler) : Handler :=
  fun w =>
  let token := bearer req in
  if negb (truthy token)
  then (json 401 (error_body "No token provided"), w)
  else match Jwt.verify token JWT_SECRET (clock w) with
       | Jwt.Decoded decoded => next (set_user req decoded) w
       | Jwt.Thrown _ => (json 401 (error_body "Invalid token"), w)
       end.

(** [app.get("/")]. *)
Definition root (req : Request) : Handler :=
  fun w => (json 200 (JStr "🚀 Backend server is running."), w).

(** The signing step of login:
    [jwt.sign({ userId: user.id, username: user.username }, JWT_SECRET,
    { expiresIn: "1d" })]. *)
Definition issue_token (user0 : Admin.t) (now : Z) : string :=
  Jwt.sign (Admin.id user0) (Admin.username user0) JWT_SECRET Jwt.one_day now.

(** Login. *)
Definition login (req : Request) : Handler :=
  fun w =>
  let username := get (body req) "username" in
  let password := get (body req) "password" in
  match query SelectAdminByUsername [username] w with
  | (Throws, w1) => (json 500 (error_body "Server error"), w1)
  | (Rows rows, w1) =>
      match rows with
      | [] => (json 401 (error_body "Invalid username or password"), w1)
      | user0 :: _ =>
          match Bcrypt.compare password (VStr (Admin.password user0)) with
          | None => (json 500 (error_body "Server error"), w1)
          | Some false =>
              (json 401 (error_body "Invalid username or password"), w1)
          | Some true =>
              let token := issue_token user0 (clock w1) in
              (json 200 (JObj [("message", JStr "Login successful");
                               ("token", JStr token)]), w1)
          end
      end
  end.

(** Token Verification. *)
Definition verify_token (req : Request) : Handler :=
  fun w =>
  let token := get (body req) "token" in
  if negb (truthy token)
  then (json 401 (error_body "No token provided"), w)
  else match Jwt.verify token JWT_SECRET (clock w) with
       | Jwt.Decoded decoded =>
           (json 200 (JObj [("valid", JBool true);
                            ("user", Jwt.content decoded)]), w)
       | Jwt.Thrown _ => (json 401 (error_body "Invalid token"), w)
       end.

(** The names of the seven fields of a listing. *)
Definition required_bike_fields : list string :=
  ["url"; "name"; "model"; "engine"; "fuel"; "color"; "warranty"].

(** The seven fields of a listing, in the order they are bound. *)
Definition bike_fields (b : Object) : list JsVal :=
  [get b "url"; get b "name"; get b "model"; get b "engine";
   get b "fuel"; get b "color"; get b "warranty"].

(** [!url || !name || !model || !engine || !fuel || !color || !warranty]. *)
Definition bike_field_missing (b : Object) : bool :=
  negb (truthy (get b "url")) || negb (truthy (get b "name"))
  || negb (truthy (get b "model")) || negb (truthy (get b "engine"))
  || negb (truthy (get b "fuel")) || negb (truthy (get b "color"))
  || negb (truthy (get b "warranty")).

(** [{ message, bike: result.rows[0] }]: an undefined member is left out. *)
Definition with_row {R : Type} (to_json : R -> Json) (message key : string)
    (rows : list R) : Json :=
  JObj (("message", JStr message)
        :: match rows with
           | r :: _ => [(key, to_json r)]
           | [] => []
           end).

(** Add a new bike (protected). *)
Definition add_bike (req : Request) : Handler :=
  fun w =>
  if bike_field_missing (body req)
  then (json 400 (error_body "All fields are required"), w)
  else match query InsertBike (bike_fields (body req)) w with
       | (Rows rows, w1) =>
           (json 201 (with_row Bike.json "Bike added successfully" "bike" rows), w1)
       | (Throws, w1) => (json 500 (error_body "Server error"), w1)
       end.

(** Update bike (protected). *)
Definition update_bike (req : Request) : Handler :=
  fun w =>
  let id := id (params req) in
  if bike_field_missing (body req)
  then (json 400 (error_body "All fields are required"), w)
  else match query UpdateBike (bike_fields (body req) ++ [VStr id]) w with
       | (Rows rows, w1) =>
           match rows with
           | [] => (json 404 (error_body "Bike not found"), w1)
           | _ :: _ =>
               (json 200 (with_row Bike.json "Bike updated successfully" "bike" rows), w1)
           end
       | (Throws, w1) => (json 500 (error_body "Server error"), w1)
       end.

(** Get all bikes (public). *)
Definition get_bikes (req : Request) : Handler :=
  fun w =>
  match query SelectBikes [] w with
  | (Rows rows, w1) => (json 200 (JArr (map Bike.json rows)), w1)
  | (Throws, w1) => (json 500 (error_body "Server error"), w1)
  end.

(** Get bike by ID (public). *)
Definition get_bike (req : Request) : Handler :=
  fun w =>
  let id := id (params req) in
  match query SelectBikeById [VNum (parseInt id)] w with
  | (Rows rows, w1) =>
      match rows with
      | [] => (json 404 (error_body "Bike not found"), w1)
      | row :: _ => (json 200 (Bike.json row), w1)
      end
  | (Throws, w1) => (json 500 (error_body "Server error"), w1)
  end.

(** Delete bike (protected). *)
Definition delete_bike (req : Request) : Handler :=
  fun w =>
  let id := id (params req) in
  match query DeleteBike [VNum (parseInt id)] w with
  | (Rows rows, w1) =>
      match rows with
      | [] => (json 404 (error_body "Bike not found"), w1)
      | _ :: _ =>
          (json 200 (JObj [("message", JStr "Bike deleted successfully")]), w1)
      end
  | (Throws, w1) => (json 500 (error_body "Server error"), w1)
  end.

(** Submit contact form. *)
Definition submit_contact (req : Request) : Handler :=
  fun w =>
  let name := get (body req) "name" in
  let phone := get (body req) "phone" in
  let email := get (body req) "email" in
  let query' := get (body req) "query" in
  if negb (truthy name) || negb (truthy phone) || negb (truthy email)
     || negb (truthy query')
  then (json 400 (error_body "All fields are required"), w)
  else match query InsertContact [name; phone; email; query'] w with
       | (Rows rows, w1) =>
           (json 201 (with_row Contact.json "Contact form submitted successfully"
                               "submission" rows), w1)
       | (Throws, w1) => (json 500 (error_body "Server error"), w1)
       end.

(** Get all contact submissions (protected). *)
Definition contact_submissions (req : Request) : Handler :=
  fun w =>
  match query SelectContactsNewestFirst [] w with
  | (Rows rows, w1) => (json 200 (JArr (map Contact.json rows)), w1)
  | (Throws, w1) => (json 500 (error_body "Server error"), w1)
  end.

(** The routes registered on [app]. *)
Inductive Route : Type :=
| GET_root
| POST_login
| POST_verify_token
| POST_bikes
| PUT_bikes_id
| GET_bikes
| GET_bikes_id
| DELETE_bikes_id
| POST_contact
| GET_contact_submissions.

(** The routes registered with [verifyToken] before their handler. *)
Definition protected (r : Route) : bool :=
  match r with
  | POST_bikes | PUT_bikes_id | DELETE_bikes_id | GET_contact_submissions => true
  | _ => false
  end.

Definition handler (r : Route) : Request -> Handler :=
  match r with
  | GET_root => root
  | POST_login => login
  | POST_verify_token => verify_token
  | POST_bikes => add_bike
  | PUT_bikes_id => update_bike
  | GET_bikes => get_bikes
  | GET_bikes_id => get_bike
  | DELETE_bikes_id => delete_bike
  | POST_contact => submit_contact
  | GET_contact_submissions => contact_submissions
  end.

(** What the application does with a request matched to a route. *)
Definition serve (r : Route) (req : Request) : Handler :=
  match r with
  | POST_bikes => verifyToken req add_bike
  | PUT_bikes_id => verifyToken req update_bike
  | DELETE_bikes_id => verifyToken req delete_bike
  | GET_contact_submissions => verifyToken req contact_submissions
  | _ => handler r req
  end.

End App.
End Server.

(* ================================================================= *)
(** ** A small instance of the libraries

    To run the handlers on concrete requests: a segment codec that writes
    numbers in binary and text bit by bit, a keyed checksum in place of
    the HMAC, and a hash that is the password behind a prefix. None of it
    is secure; it only has the shape the token format asks for. *)

Module Fixture.
Import Js.

Fixpoint pos_text (p : positive) : string :=
  match p with
  | xH => "h"
  | xO q => String "o" (pos_text q)
  | xI q => String "i" (pos_text q)
  end.

Definition z_text (z : Z) : string :=
  match z with
  | Z0 => "z"
  | Zpos p => String "p" (pos_text p)
  | Zneg p => String "n" (pos_text p)
  end.

Definition exp_text (e : option Z) : string :=
  match e with
  | None => "N"
  | Some z => String "S" (z_text z)
  end.

Definition bit_char (b : bool) : ascii := if b then "1"%char else "0"%char.

Fixpoint bits_text (s : string) : string :=
  match s with
  | EmptyString => EmptyString
  | String (Ascii b0 b1 b2 b3 b4 b5 b6 b7) r =>
      String (bit_char b0) (String (bit_char b1) (String (bit_char b2)
      (String (bit_char b3) (String (bit_char b4) (String (bit_char b5)
      (String (bit_char b6) (String (bit_char b7) (bits_text r))))))))
  end.

(** A payload on the wire: the four claims and a not-before time, which
    the payload of an issued token does not have. *)
Definition payload_text (c : Jwt.Claims) (nbf : option Z) : string :=
  z_text (Jwt.userId c) ++ z_text (Jwt.iat c) ++ exp_text (Jwt.exp c)
  ++ exp_text nbf ++ bits_text (Jwt.username c).

Definition encode_payload (c : Jwt.Claims) : string := payload_text c None.

Fixpoint read_pos (s : string) : option (positive * string) :=
  match s with
  | String "h" r => Some (xH, r)
  | String "o" r => match read_pos r with
                    | Some (q, r') => Some (xO q, r')
                    | None => None
                    end
  | String "i" r => match read_pos r with
                    | Some (q, r') => Some (xI q, r')
                    | None => None
                    end
  | _ => None
  end.

Definition read_z (s : string) : option (Z * string) :=
  match s with
  | String "z" r => Some (0, r)
  | String "p" r => match read_pos r with
                    | Some (q, r') => Some (Zpos q, r')
                    | None => None
                    end
  | String "n" r => match read_pos r with
                    | Some (q, r') => Some (Zneg q, r')
                    | None => None
                    end
  | _ => None
  end.

Definition read_exp (s : string) : option (option Z * string) :=
  match s with
  | String "N" r => Some (None, r)
  | String "S" r => match read_z r with
                    | Some (z, r') => Some (Some z, r')
                    | None => None
                    end
  | _ => None
  end.

Definition read_bit (c : ascii) : option bool :=
  if Ascii.eqb c "1" then Some true
  else if Ascii.eqb c "0" then Some false
  else None.

Fixpoint read_bits (s : string) : option string :=
  match s with
  | EmptyString => Some EmptyString
  | String c0 (String c1 (String c2 (String c3
      (String c4 (String c5 (String c6 (String c7 r))))))) =>
      match read_bit c0, read_bit c1, read_bit c2, read_bit c3,
            read_bit c4, read_bit c5, read_bit c6, read_bit c7, read_bits r with
      | Some b0, Some b1, Some b2, Some b3,
        Some b4, Some b5, Some b6, Some b7, Some t =>
          Some (String (Ascii b0 b1 b2 b3 b4 b5 b6 b7) t)
      | _, _, _, _, _, _, _, _, _ => None
      end
  | _ => None
  end.

Definition time_claim (name : string) (v : option Z) : list (string * Json) :=
  match v with
  | Some z => [(name, JNum z)]
  | None => []
  end.

Definition numeric_date (v : option Z) : Jwt.NumericDate :=
  match v with
  | Some z => Jwt.Finite (inject_Z z)
  | None => Jwt.Absent
  end.

Definition payload (uid : Z) (uname : string) (issued_at : Z) (e nbf : option Z)
    : Jwt.Payload :=
  {| Jwt.content := JObj ([("userId", JNum uid); ("username", JStr uname);
                           ("iat", JNum issued_at)]
                          ++ time_claim "exp" e ++ time_claim "nbf" nbf);
     Jwt.not_before := numeric_date nbf;
     Jwt.expires := numeric_date e |}.

Definition decode_payload (s : string) : option Jwt.Payload :=
  match read_z s with
  | Some (uid, s1) =>
      match read_z s1 with
      | Some (issued_at, s2) =>
          match read_exp s2 with
          | Some (e, s3) =>
              match read_exp s3 with
              | Some (nbf, s4) =>
                  match read_bits s4 with
                  | Some uname => Some (payload uid uname issued_at e nbf)
                  | None => None
                  end
              | None => None
              end
          | None => None
          end
      | None => None
      end
  | None => None
  end.

(** base64url of the JSON text of the header with alg HS256 and typ JWT. *)
Definition header_HS256 : string := "eyJhbGciOiJIUzI1NiIsInR5cCI6IkpXVCJ9".

Definition header_alg (h : string) : option string :=
  if (h =? header_HS256)%string then Some "HS256" else None.

Fixpoint only_b64url (s : string) : string :=
  match s with
  | EmptyString => EmptyString
  | String c r => if Jwt.b64url_char c then String c (only_b64url r)
                  else only_b64url r
  end.

(** The checksum: the key and the input, reduced to base64url text. *)
Definition mac (alg key input : string) : string :=
  String "m" (only_b64url (alg ++ key ++ input)).

(** The stored hash of a password. *)
Definition hash (password : string) : string := "$2b$10$" ++ password.

Definition matches (password stored : string) : bool :=
  (stored =? hash password)%string.

(** A catalogue with one administrator, two listings and three inquiries. *)
Definition shop : Pg.t :=
  {| Pg.admins := [{| Admin.id := 1; Admin.username := "Admin";
                      Admin.password := hash "s3cret" |}];
     Pg.bikes := [{| Bike.id := 12; Bike.url := Some "http://img/12.png";
                     Bike.name := Some "Pulsar"; Bike.model := Some "150";
                     Bike.engine := Some "149cc"; Bike.fuel := Some "petrol";
                     Bike.color := Some "black"; Bike.warranty := Some "1y" |};
                  {| Bike.id := 13; Bike.url := Some "http://img/13.png";
                     Bike.name := Some "Activa"; Bike.model := Some "6G";
                     Bike.engine := Some "110cc"; Bike.fuel := Some "petrol";
                     Bike.color := Some "grey"; Bike.warranty := Some "2y" |}];
     Pg.bikes_id_seq := 14;
     Pg.contact_submissions :=
       [{| Contact.id := 1; Contact.name := Some "Asha"; Contact.phone := Some "1";
           Contact.email := Some "a@x"; Contact.query := Some "price?";
           Contact.submitted_at := 100 |};
        {| Contact.id := 2; Contact.name := Some "Ravi"; Contact.phone := Some "2";
           Contact.email := Some "r@x"; Contact.query := Some "stock?";
           Contact.submitted_at := 200 |};
        {| Contact.id := 3; Contact.name := Some "Mina"; Contact.phone := Some "3";
           Contact.email := Some "m@x"; Contact.query := Some "loan?";
           Contact.submitted_at := 300 |}];
     Pg.contact_submissions_id_seq := 4;
     Pg.now := 1000;
     Pg.scan := fun l => l;
     Pg.scan_permutes := @Permutation_refl Bike.t |}.

(** The administrator of the catalogue, the claims of a token issued to
    them at 500 with the default secret, the token, and the token with the
    first byte of its signature flipped. *)
Definition admin : Admin.t :=
  {| Admin.id := 1; Admin.username := "Admin"; Admin.password := hash "s3cret" |}.

Definition claims : Jwt.Claims :=
  {| Jwt.userId := 1; Jwt.username := "Admin"; Jwt.iat := 500;
     Jwt.exp := Some 86900 |}.

Definition signature : string :=
  mac "HS256" "default_secret_key" (header_HS256 ++ "." ++ encode_payload claims).

Definition token : string :=
  header_HS256 ++ "." ++ encode_payload claims ++ "." ++ signature.

Definition forged : string :=
  header_HS256 ++ "." ++ encode_payload claims ++ "." ++ flip_byte 0 signature.

(** A token signed with the default secret whose payload has, besides the
    same claims, a not-before time of 2000. *)
Definition postdated : string :=
  header_HS256 ++ "." ++ payload_text claims (Some 2000) ++ "."
  ++ mac "HS256" "default_secret_key"
         (header_HS256 ++ "." ++ payload_text claims (Some 2000)).

(** U+00A0 in front of [12], as the two bytes of its encoding. *)
Definition nbsp_12 : string :=
  String (ascii_of_nat 194) (String (ascii_of_nat 160) "12").

Definition world (now : Z) : Db.World Pg.t :=
  {| Db.store := shop; Db.issued := []; Db.clock := now |}.

Definition request (hs : list (string * string)) (id : string) (b : Object)
    : Server.Request :=
  {| Server.headers := hs; Server.params := {| Server.id := id |};
     Server.body := b; Server.user := None |}.

Definition bike_body : Object :=
  [("url", VStr "http://img/14.png"); ("name", VStr "Splendor");
   ("model", VStr "Plus"); ("engine", VStr "97cc"); ("fuel", VStr "petrol");
   ("color", VStr "red"); ("warranty", VStr "1y")].

Definition authorized (id : string) (b : Object) : Server.Request :=
  request [("authorization", "Bearer " ++ token)] id b.

End Fixture.

(* ================================================================= *)
(** * Properties *)

(** ** Strings *)

Module JsFacts.
Import Js.

Lemma append_assoc (a b c : string) : ((a ++ b) ++ c = a ++ (b ++ c))%string.
Proof.
  induction a as [|x a IH]; simpl; [reflexivity|].
  now rewrite IH.
Qed.

Lemma has_char_append (c : ascii) (a b : string) :
  has_char c (a ++ b) = has_char c a || has_char c b.
Proof.
  induction a as [|x a IH]; simpl; [reflexivity|].
  now rewrite IH, orb_assoc.
Qed.

Lemma split_not_nil (sep : ascii) (s : string) : split sep s <> [].
Proof.
  destruct s as [|c r]; simpl; [discriminate|].
  destruct (Ascii.eqb c sep); [discriminate|].
  destruct (split sep r); discriminate.
Qed.

(** A string without the separator is its own single piece. *)
Lemma split_whole (sep : ascii) (s : string) :
  has_char sep s = false -> split sep s = [s].
Proof.
  induction s as [|c r IH]; simpl; intros Hs; [reflexivity|].
  apply orb_false_iff in Hs as [Hc Hr].
  rewrite Hc, (IH Hr). reflexivity.
Qed.

(** The first piece ends at the first separator. *)
Lemma split_first (sep : ascii) (a r : string) :
  has_char sep a = false ->
  split sep (a ++ String sep r) = a :: split sep r.
Proof.
  induction a as [|c a IH]; simpl; intros Ha.
  - now rewrite Ascii.eqb_refl.
  - apply orb_false_iff in Ha as [Hc Hr].
    rewrite Hc, (IH Hr). reflexivity.
Qed.

(** Three pieces are the three parts of the string, none with a separator. *)
Lemma split_three (sep : ascii) (t h p s : string) :
  split sep t = [h; p; s] ->
  t = (h ++ String sep (p ++ String sep s))%string
  /\ has_char sep h = false /\ has_char sep p = false /\ has_char sep s = false.
Proof.
  assert (Hone : forall u x, split sep u = [x] -> u = x /\ has_char sep x = false).
  { induction u as [|c r IH]; simpl; intros x Hx.
    - inversion Hx; subst. now split.
    - destruct (Ascii.eqb c sep) eqn:Hc.
      + inversion Hx as [[Hx1 Hx2]]. now apply split_not_nil in Hx2.
      + destruct (split sep r) as [|y ys] eqn:Hr; [now apply split_not_nil in Hr|].
        inversion Hx; subst.
        destruct (IH y eq_refl) as [-> Hy]. simpl. now rewrite Hc, Hy. }
  assert (Hcons : forall u x xs, xs <> [] -> split sep u = x :: xs ->
            exists r, u = (x ++ String sep r)%string /\ has_char sep x = false
                      /\ split sep r = xs).
  { induction u as [|c r IH]; simpl; intros x xs Hxs Hx.
    - inversion Hx; subst. now elim Hxs.
    - destruct (Ascii.eqb c sep) eqn:Hc.
      + inversion Hx; subst. apply Ascii.eqb_eq in Hc as ->.
        exists r. now repeat split.
      + destruct (split sep r) as [|y ys] eqn:Hr; [now apply split_not_nil in Hr|].
        inversion Hx; subst.
        destruct (IH y xs Hxs eq_refl) as (r' & -> & Hy & Hr').
        exists r'. simpl. now rewrite Hc, Hy. }
  intros Ht.
  destruct (Hcons t h [p; s] ltac:(discriminate) Ht) as (r1 & -> & Hh & Hr1).
  destruct (Hcons r1 p [s] ltac:(discriminate) Hr1) as (r2 & -> & Hp & Hr2).
  destruct (Hone r2 s Hr2) as [-> Hs].
  now repeat split.
Qed.

Lemma split_join_three (sep : ascii) (h p s : string) :
  has_char sep h = false -> has_char sep p = false -> has_char sep s = false ->
  split sep (h ++ String sep (p ++ String sep s)) = [h; p; s].
Proof.
  intros Hh Hp Hs.
  now rewrite (split_first _ _ _ Hh), (split_first _ _ _ Hp), (split_whole _ _ Hs).
Qed.

(** A separator in the last part makes a fourth piece. *)
Lemma split_four (sep : ascii) (h p s : string) :
  has_char sep h = false -> has_char sep p = false -> has_char sep s = true ->
  exists a b c d rest, split sep (h ++ String sep (p ++ String sep s))
                       = a :: b :: c :: d :: rest.
Proof.
  intros Hh Hp Hs.
  rewrite (split_first _ _ _ Hh), (split_first _ _ _ Hp).
  assert (Htwo : forall u, has_char sep u = true ->
            exists c d rest, split sep u = c :: d :: rest).
  { clear. induction u as [|x r IH]; simpl; [discriminate|]. intros Hx.
    destruct (Ascii.eqb x sep) eqn:Hc.
    - destruct (split sep r) as [|d rest] eqn:Hr; [now apply split_not_nil in Hr|].
      now exists EmptyString, d, rest.
    - simpl in Hx. destruct (IH Hx) as (c & d & rest & ->).
      now exists (String x c), d, rest. }
  destruct (Htwo s Hs) as (c & d & rest & ->).
  now exists h, p, c, d, rest.
Qed.

Lemma flip_byte_changes (i : nat) (s : string) :
  (i < String.length s)%nat -> flip_byte i s <> s.
Proof.
  revert i; induction s as [|c r IH]; intros i Hi; simpl in Hi; [lia|].
  destruct i as [|j]; simpl.
  - destruct c as [[] b1 b2 b3 b4 b5 b6 b7]; discriminate.
  - intros [= Heq]. apply (IH j); [lia | exact Heq].
Qed.

(** A character of one byte that is no white space starts no white space. *)
Lemma trim_start_ascii (c : ascii) (r : string) :
  byte c < 128 -> is_space c = false -> trim_start (String c r) = String c r.
Proof.
  intros Hc Hs. cbn [trim_start]. rewrite Hs.
  assert (H2 : forall c2, is_space2 c c2 = false).
  { intros c2. unfold is_space2.
    destruct (Z.eqb_spec (byte c) 194); [lia | reflexivity]. }
  assert (H3 : forall c2 c3, is_space3 c c2 c3 = false).
  { intros c2 c3. unfold is_space3.
    destruct (Z.eqb_spec (byte c) 225); [lia|].
    destruct (Z.eqb_spec (byte c) 226); [lia|].
    destruct (Z.eqb_spec (byte c) 227); [lia|].
    destruct (Z.eqb_spec (byte c) 239); [lia | reflexivity]. }
  destruct r as [|c2 [|c3 r3]]; [reflexivity | now rewrite H2 |].
  now rewrite H2, H3.
Qed.

Lemma digit_is_ascii (radix : Z) (c : ascii) (d : Z) :
  digit_value radix c = Some d -> byte c < 128 /\ is_space c = false.
Proof.
  unfold digit_value, is_space.
  destruct (Z.leb_spec 48 (byte c)), (Z.leb_spec (byte c) 57); cbn [andb];
    [intros _; split; [lia|]; destruct (Z.leb_spec 9 (byte c)),
       (Z.leb_spec (byte c) 13), (Z.eqb_spec (byte c) 32); cbn; (reflexivity || lia)|..];
    destruct (Z.leb_spec 97 (byte c)), (Z.leb_spec (byte c) 102); cbn [andb];
    try (intros _; split; [lia|]; destruct (Z.leb_spec 9 (byte c)),
           (Z.leb_spec (byte c) 13), (Z.eqb_spec (byte c) 32); cbn; (reflexivity || lia));
    destruct (Z.leb_spec 65 (byte c)), (Z.leb_spec (byte c) 70); cbn [andb];
    try discriminate;
    intros _; split; try lia; destruct (Z.leb_spec 9 (byte c)),
      (Z.leb_spec (byte c) 13), (Z.eqb_spec (byte c) 32); cbn; (reflexivity || lia).
Qed.

Lemma digit_string_append (a b : string) :
  digit_string (a ++ b) = digit_string a && digit_string b.
Proof.
  induction a as [|c a IH]; [reflexivity|]. cbn [append digit_string].
  destruct (digit_value 10 c); [exact IH | reflexivity].
Qed.

Lemma digit_string_zeros (n : nat) : digit_string (zeros n) = true.
Proof. induction n as [|n IH]; [reflexivity | exact IH]. Qed.

(** Reading the digits of two digit strings, one after the other. *)
Lemma read_digits_append (a b : string) (acc : Z) :
  digit_string a = true ->
  read_digits 10 acc (a ++ b) = read_digits 10 (fst (read_digits 10 acc a)) b.
Proof.
  revert acc; induction a as [|c a IH]; intros acc Ha; [reflexivity|].
  cbn [append read_digits digit_string] in *.
  destruct (digit_value 10 c); [now apply IH | discriminate].
Qed.

Lemma read_digits_zeros (n : nat) (acc : Z) :
  read_digits 10 acc (zeros n) = (acc * 10 ^ Z.of_nat n, EmptyString).
Proof.
  revert acc; induction n as [|n IH]; intros acc.
  - cbn. f_equal. lia.
  - change (read_digits 10 acc (zeros (S n)))
      with (read_digits 10 (10 * acc + 0) (zeros n)).
    rewrite IH. f_equal.
    rewrite Nat2Z.inj_succ, Z.pow_succ_r by lia. lia.
Qed.

Lemma read_digits_all (a : string) (acc : Z) :
  digit_string a = true -> snd (read_digits 10 acc a) = EmptyString.
Proof.
  revert acc; induction a as [|c a IH]; intros acc Ha; [reflexivity|].
  cbn [read_digits digit_string] in *.
  destruct (digit_value 10 c); [now apply IH | discriminate].
Qed.

End JsFacts.

(** ** The token service *)

Module JwtFacts.
Import Js Jwt JsFacts.

Lemma b64url_no_dot (s : string) : b64url s = true -> has_char "." s = false.
Proof.
  induction s as [|c r IH]; simpl; [reflexivity|].
  intros Hs. apply andb_true_iff in Hs as [Hc Hr]. rewrite (IH Hr), orb_false_r.
  destruct (Ascii.eqb_spec c "."); [subst; discriminate | reflexivity].
Qed.

Lemma b64url_char_ascii (c : ascii) :
  b64url_char c = true -> byte c < 128 /\ is_space c = false.
Proof.
  destruct c as [[] [] [] [] [] [] [] []]; (discriminate || (intros _; now split)).
Qed.

Lemma b64url_not_blank (s : string) : b64url s = true -> s <> "" -> blank s = false.
Proof.
  destruct s as [|c r]; simpl; intros Hs Hne; [now elim Hne|].
  apply andb_true_iff in Hs as [Hc _].
  destruct (b64url_char_ascii _ Hc) as [Hlt Hsp].
  unfold blank. now rewrite (trim_start_ascii c r Hlt Hsp).
Qed.

Lemma Qle_bool_inject_Z (a b : Z) : Qle_bool (inject_Z a) (inject_Z b) = (a <=? b).
Proof. unfold Qle_bool, inject_Z. cbn. now rewrite !Z.mul_1_r. Qed.

Section WithJose.
Context {J : Jose}.

(** The text of an issued token. *)
Lemma sign_text (uid : Z) (uname secret : string) (d now : Z) :
  let c := {| userId := uid; username := uname; iat := now; exp := Some (now + d) |} in
  sign uid uname secret d now
  = (header_HS256 ++ String "." (encode_payload c
       ++ String "." (mac "HS256" secret (header_HS256 ++ "." ++ encode_payload c))))%string.
Proof.
  unfold sign; cbv zeta. rewrite append_assoc. reflexivity.
Qed.

Lemma sign_segments (uid : Z) (uname secret : string) (d now : Z) :
  let c := {| userId := uid; username := uname; iat := now; exp := Some (now + d) |} in
  split "." (sign uid uname secret d now)
  = [header_HS256; encode_payload c;
     mac "HS256" secret (header_HS256 ++ "." ++ encode_payload c)].
Proof.
  cbv zeta. rewrite sign_text. apply split_join_three; apply b64url_no_dot.
  - apply header_HS256_b64url.
  - apply encode_payload_b64url.
  - apply mac_b64url.
Qed.

Lemma sign_truthy (uid : Z) (uname secret : string) (d now : Z) :
  truthy (VStr (sign uid uname secret d now)) = true.
Proof.
  simpl. rewrite sign_text.
  destruct header_HS256; reflexivity.
Qed.

(** A token issued at [now] and verified before [now + d] decodes to the
    claims it was issued with. *)
Lemma verify_sign (uid : Z) (uname secret : string) (d now now' : Z) :
  now' < now + d ->
  verify (VStr (sign uid uname secret d now)) secret now'
  = Decoded (issued_payload {| userId := uid; username := uname; iat := now;
                               exp := Some (now + d) |}).
Proof.
  intros Hlt. unfold verify.
  rewrite sign_truthy. cbn [negb]. rewrite sign_segments.
  rewrite header_HS256_alg, decode_encode_payload.
  rewrite (b64url_not_blank _ (mac_b64url _ _ _) (mac_nonempty _ _ _)).
  cbn [allowed HS_ALGS existsb negb orb]. rewrite String.eqb_refl. cbn [orb negb].
  rewrite String.eqb_refl.
  cbn [negb issued_payload not_before expires exp checked_nbf checked_exp].
  rewrite Qle_bool_inject_Z.
  destruct (Z.leb_spec (now + d) now'); [lia | reflexivity].
Qed.

(** A token is thrown out from the second its validity ends. *)
Lemma verify_sign_expired (uid : Z) (uname key : string) (d now now' : Z) :
  now + d <= now' ->
  verify (VStr (sign uid uname key d now)) key now' = Thrown TokenExpired.
Proof.
  intros Hle. unfold verify.
  rewrite sign_truthy. cbn [negb]. rewrite sign_segments.
  rewrite header_HS256_alg, decode_encode_payload.
  rewrite (b64url_not_blank _ (mac_b64url _ _ _) (mac_nonempty _ _ _)).
  cbn [allowed HS_ALGS existsb negb orb]. rewrite String.eqb_refl. cbn [orb negb].
  rewrite String.eqb_refl.
  cbn [negb issued_payload not_before expires exp checked_nbf checked_exp].
  rewrite Qle_bool_inject_Z.
  destruct (Z.leb_spec (now + d) now'); [reflexivity | lia].
Qed.

(** [jwt.verify] returns the payload of the token when the token is
    acceptable and throws when it is not. *)
Lemma verify_acceptable (t secret : string) (now : Z) :
  match verify (VStr t) secret now with
  | Decoded p => acceptable secret now t = true /\ payload_of t = Some p
  | Thrown _ => acceptable secret now t = false
  end.
Proof.
  unfold verify, acceptable, well_formed, signature_matches, ill_typed_dates,
    not_yet_active, expiry_passed, payload_of, segments.
  destruct (truthy (VStr t)) eqn:Ht; cbn [negb].
  - destruct (split "." t) as [|h [|p [|s [|x l]]]]; try reflexivity.
    destruct (header_alg h) as [alg|];
      [|destruct (decode_payload p); reflexivity].
    destruct (decode_payload p) as [pl|]; [|reflexivity].
    destruct (blank s); cbn [negb andb]; [reflexivity|].
    destruct (allowed alg); cbn [negb andb]; [|reflexivity].
    destruct (s =? mac alg secret (h ++ "." ++ p))%string; cbn [negb andb];
      [|reflexivity].
    destruct (not_before pl) as [| |q|[|]], (expires pl) as [| |q'|[|]];
      cbn [checked_nbf checked_exp negb andb];
      repeat match goal with
             | |- context [Qle_bool ?a ?b] => destruct (Qle_bool a b)
             end;
      cbn [negb andb]; (reflexivity || (split; reflexivity)).
  - simpl in Ht. apply negb_false_iff, String.eqb_eq in Ht. subst t. reflexivity.
Qed.

Lemma verify_decoded (t secret : string) (now : Z) (p : Payload) :
  verify (VStr t) secret now = Decoded p ->
  acceptable secret now t = true /\ payload_of t = Some p.
Proof.
  intros Hv. pose proof (verify_acceptable t secret now) as Ha.
  now rewrite Hv in Ha.
Qed.

Lemma verify_thrown (t secret : string) (now : Z) :
  acceptable secret now t = false ->
  exists e, verify (VStr t) secret now = Thrown e.
Proof.
  intros Hbad. pose proof (verify_acceptable t secret now) as Ha.
  destruct (verify (VStr t) secret now) as [p|e]; [|now exists e].
  destruct Ha as [Ha _]. congruence.
Qed.

Lemma verify_accepted (t secret : string) (now : Z) :
  acceptable secret now t = true ->
  exists p, payload_of t = Some p /\ verify (VStr t) secret now = Decoded p.
Proof.
  intros Hok. pose proof (verify_acceptable t secret now) as Ha.
  destruct (verify (VStr t) secret now) as [p|e]; [|congruence].
  exists p. now destruct Ha.
Qed.

(** Whatever replaces the signature of an accepted token, other than the
    signature itself, is thrown out. *)
Lemma verify_tampered (h p s s' secret : string) (now : Z) (c : Payload) :
  verify (VStr (h ++ "." ++ p ++ "." ++ s)) secret now = Decoded c ->
  segments (h ++ "." ++ p ++ "." ++ s) = Some (h, p, s) ->
  s' <> s ->
  exists e, verify (VStr (h ++ "." ++ p ++ "." ++ s')) secret now = Thrown e.
Proof.
  intros Hv Hseg Hne.
  apply verify_decoded in Hv as [Hacc _].
  unfold acceptable in Hacc. rewrite !andb_true_iff in Hacc.
  destruct Hacc as [[[[_ Hs] _] _] _].
  unfold signature_matches in Hs. rewrite Hseg in Hs.
  unfold segments in Hseg.
  destruct (split "." (h ++ "." ++ p ++ "." ++ s)) as [|a [|b [|x [|y l]]]] eqn:Hsp;
    try discriminate.
  injection Hseg as -> -> ->.
  apply split_three in Hsp as (_ & Hh & Hp & _).
  destruct (has_char "." s') eqn:Hd.
  - destruct (split_four "." h p s' Hh Hp Hd) as (a & b & x & y & rest & Hfour).
    unfold verify. change (h ++ "." ++ p ++ "." ++ s')%string
      with (h ++ String "." (p ++ String "." s'))%string.
    destruct (truthy _); cbn [negb]; [rewrite Hfour|]; eauto.
  - apply verify_thrown. unfold acceptable.
    replace (signature_matches secret (h ++ "." ++ p ++ "." ++ s')) with false;
      [now rewrite andb_false_r|].
    unfold signature_matches, segments.
    change (h ++ "." ++ p ++ "." ++ s')%string
      with (h ++ String "." (p ++ String "." s'))%string.
    rewrite (split_join_three "." h p s' Hh Hp Hd).
    destruct (header_alg h) as [alg|]; [|reflexivity].
    apply andb_true_iff in Hs as [Ha Hs]. rewrite Ha. cbn [andb].
    apply String.eqb_eq in Hs. symmetry. apply String.eqb_neq. congruence.
Qed.

End WithJose.
End JwtFacts.

(** ** The small instance satisfies the interface *)

Module FixtureFacts.
Import Js Fixture.

Lemma b64url_append (a b : string) :
  Jwt.b64url (a ++ b) = Jwt.b64url a && Jwt.b64url b.
Proof.
  induction a as [|c a IH]; simpl; [reflexivity|].
  now rewrite IH, andb_assoc.
Qed.

Lemma pos_text_b64url (p : positive) : Jwt.b64url (pos_text p) = true.
Proof. induction p; simpl; auto. Qed.

Lemma z_text_b64url (z : Z) : Jwt.b64url (z_text z) = true.
Proof. destruct z; simpl; auto using pos_text_b64url. Qed.

Lemma exp_text_b64url (e : option Z) : Jwt.b64url (exp_text e) = true.
Proof. destruct e; simpl; auto using z_text_b64url. Qed.

Lemma bits_text_b64url (s : string) : Jwt.b64url (bits_text s) = true.
Proof.
  induction s as [|c r IH]; [reflexivity|].
  destruct c as [[] [] [] [] [] [] [] []]; exact IH.
Qed.

Lemma payload_text_b64url (c : Jwt.Claims) : Jwt.b64url (encode_payload c) = true.
Proof.
  unfold encode_payload, payload_text.
  rewrite !b64url_append, !z_text_b64url, bits_text_b64url, !exp_text_b64url.
  reflexivity.
Qed.

Lemma read_pos_text (p : positive) (r : string) :
  read_pos (pos_text p ++ r) = Some (p, r).
Proof. induction p as [q IH|q IH|]; simpl; try rewrite IH; reflexivity. Qed.

Lemma read_z_text (z : Z) (r : string) : read_z (z_text z ++ r) = Some (z, r).
Proof. destruct z; simpl; try rewrite read_pos_text; reflexivity. Qed.

Lemma read_exp_text (e : option Z) (r : string) :
  read_exp (exp_text e ++ r) = Some (e, r).
Proof. destruct e; simpl; try rewrite read_z_text; reflexivity. Qed.

Lemma read_bits_text (s : string) : read_bits (bits_text s) = Some s.
Proof.
  induction s as [|c r IH]; [reflexivity|].
  destruct c as [[] [] [] [] [] [] [] []]; cbn; rewrite IH; reflexivity.
Qed.

Lemma payload_text_read (c : Jwt.Claims) :
  decode_payload (encode_payload c) = Some (Jwt.issued_payload c).
Proof.
  unfold decode_payload, encode_payload, payload_text.
  rewrite read_z_text, read_z_text, read_exp_text, read_exp_text, read_bits_text.
  destruct c as [uid uname issued_at [e|]]; reflexivity.
Qed.

Lemma only_b64url_b64url (s : string) : Jwt.b64url (only_b64url s) = true.
Proof.
  induction s as [|c r IH]; simpl; [reflexivity|].
  destruct (Jwt.b64url_char c) eqn:Hc; simpl; [now rewrite Hc|exact IH].
Qed.

Lemma checksum_b64url (alg key input : string) : Jwt.b64url (mac alg key input) = true.
Proof. apply only_b64url_b64url. Qed.

Lemma checksum_nonempty (alg key input : string) : mac alg key input <> "".
Proof. discriminate. Qed.

#[export] Instance jose : Jwt.Jose :=
  {| Jwt.mac := mac;
     Jwt.header_alg := header_alg;
     Jwt.header_HS256 := header_HS256;
     Jwt.encode_payload := encode_payload;
     Jwt.decode_payload := decode_payload;
     Jwt.mac_b64url := checksum_b64url;
     Jwt.mac_nonempty := checksum_nonempty;
     Jwt.header_HS256_b64url := eq_refl;
     Jwt.header_HS256_alg := eq_refl;
     Jwt.encode_payload_b64url := payload_text_b64url;
     Jwt.decode_encode_payload := payload_text_read |}.

#[export] Instance hasher : Bcrypt.Hasher := {| Bcrypt.matches := matches |}.

End FixtureFacts.

(* ================================================================= *)
(** ** The handlers, over any store, hash and token codec *)

Section Handlers.
Import Js Db Server.

Context {S : Type} {ST : Store S} {H : Bcrypt.Hasher} {J : Jwt.Jose}.
Variable env : option string.

#[local] Abbreviation secret := (JWT_SECRET env).

(** The middleware answers by itself when there is no token. *)
Lemma verifyToken_no_token (req : Request) (next : Request -> Handler) (w : World S) :
  truthy (bearer req) = false ->
  verifyToken env req next w = (json 401 (error_body "No token provided"), w).
Proof. intros Ht. unfold verifyToken. now rewrite Ht. Qed.

(** The middleware hands an accepted request on, with the payload attached. *)
Lemma verifyToken_admits (req : Request) (next : Request -> Handler) (w : World S)
    (c : Jwt.Payload) :
  Jwt.verify (bearer req) secret (clock w) = Jwt.Decoded c ->
  verifyToken env req next w = next (set_user req c) w.
Proof.
  intros Hv. unfold verifyToken.
  destruct (truthy (bearer req)) eqn:Ht; cbn [negb]; [now rewrite Hv|].
  unfold Jwt.verify in Hv. rewrite Ht in Hv. discriminate.
Qed.

(** The middleware leaves the world as it is unless it hands the request on. *)
Lemma verifyToken_cases (req : Request) (next : Request -> Handler) (w : World S) :
  (exists c, Jwt.verify (bearer req) secret (clock w) = Jwt.Decoded c
             /\ verifyToken env req next w = next (set_user req c) w)
  \/ (status (fst (verifyToken env req next w)) = 401
      /\ snd (verifyToken env req next w) = w).
Proof.
  destruct (Jwt.verify (bearer req) secret (clock w)) as [c|e] eqn:Hv.
  - left. exists c. split; [reflexivity | now apply verifyToken_admits].
  - right. unfold verifyToken.
    destruct (truthy (bearer req)); cbn [negb]; [rewrite Hv|]; now split.
Qed.

Lemma serve_protected (r : Route) (req : Request) :
  protected r = true -> serve env r req = verifyToken env req (handler env r).
Proof. destruct r; (discriminate || reflexivity). Qed.

(** The validation of a listing fails as soon as one field is falsy. *)
Lemma bike_field_missing_in (b : Object) (k : string) :
  In k required_bike_fields -> truthy (get b k) = false ->
  bike_field_missing b = true.
Proof.
  unfold required_bike_fields, bike_field_missing. cbn [In].
  intros Hk Hf.
  repeat (destruct Hk as [<-|Hk]; [rewrite Hf; cbn [negb orb]; now rewrite ?orb_true_r|]).
  contradiction.
Qed.

(** Login sends the lookup before it looks at anything else. *)
Lemma login_issued (req : Request) (w : World S) :
  issued (snd (login env req w))
  = (issued w ++ [(text SelectAdminByUsername, [get (body req) "username"])])%list.
Proof.
  unfold login, query.
  destruct (run SelectAdminByUsername _ (store w)) as [[rows|] s'].
  - destruct rows as [|user0 rest]; [reflexivity|].
    destruct (Bcrypt.compare _ _) as [[|]|]; reflexivity.
  - reflexivity.
Qed.

(** A successful login answers with the token of the signing step. *)
Lemma login_success (req : Request) (w : World S) (user0 : Admin.t)
    (others : list Admin.t) :
  fst (run SelectAdminByUsername [get (body req) "username"] (store w))
    = Rows (user0 :: others) ->
  Bcrypt.compare (get (body req) "password") (VStr (Admin.password user0)) = Some true ->
  fst (login env req w)
  = json 200 (JObj [("message", JStr "Login successful");
                    ("token", JStr (issue_token env user0 (clock w)))]).
Proof.
  intros Hq Hm. unfold login, query.
  destruct (run SelectAdminByUsername _ (store w)) as [r s']. simpl in Hq. subst r.
  now rewrite Hm.
Qed.

(** C6. On every protected route (bike create, update, delete and the
    contact-submissions list) a request without an Authorization header is
    answered 401 by [verifyToken]: the handler is never entered, whatever it
    is, and the world (store and log of issued statements) is returned
    untouched. *)
Theorem protected_route_without_authorization
    (r : Route) (req : Request) (w : World S) :
  protected r = true ->
  header (headers req) "authorization" = undefined ->
  serve env r req w = (json 401 (error_body "No token provided"), w)
  /\ (forall next : Request -> Handler,
        verifyToken env req next w = (json 401 (error_body "No token provided"), w))
  /\ store (snd (serve env r req w)) = store w
  /\ issued (snd (serve env r req w)) = issued w.
Proof.
  intros Hp Hh.
  assert (Hmw : forall next, verifyToken env req next w
                    = (json 401 (error_body "No token provided"), w)).
  { intros next. apply verifyToken_no_token. unfold bearer. now rewrite Hh. }
  rewrite (serve_protected r req Hp), Hmw. auto.
Qed.

(** C5. When one of the seven required fields of a listing is missing,
    empty or otherwise falsy, the create and the update handler answer 400
    and return the world untouched: no statement is issued and the store
    is unchanged. On the routes the same holds behind [verifyToken]: the
    world is untouched in every case, and the answer is the 400 whenever
    [verifyToken] hands the request on. *)
Theorem bike_missing_field_rejected (req : Request) (w : World S) (k : string) :
  In k required_bike_fields ->
  truthy (get (body req) k) = false ->
  add_bike req w = (json 400 (error_body "All fields are required"), w)
  /\ update_bike req w = (json 400 (error_body "All fields are required"), w)
  /\ (forall r, r = POST_bikes \/ r = PUT_bikes_id ->
        snd (serve env r req w) = w
        /\ (forall c, Jwt.verify (bearer req) secret (clock w) = Jwt.Decoded c ->
              serve env r req w
              = (json 400 (error_body "All fields are required"), w))).
Proof.
  intros Hk Hf.
  pose proof (bike_field_missing_in _ _ Hk Hf) as Hm.
  assert (Ha : forall req', body req' = body req ->
            add_bike req' w = (json 400 (error_body "All fields are required"), w)).
  { intros req' Hb. unfold add_bike. now rewrite Hb, Hm. }
  assert (Hu : forall req', body req' = body req ->
            update_bike req' w = (json 400 (error_body "All fields are required"), w)).
  { intros req' Hb. unfold update_bike. now rewrite Hb, Hm. }
  split; [now apply Ha|]. split; [now apply Hu|].
  intros r [-> | ->]; cbn [serve].
  - split.
    + destruct (verifyToken_cases req add_bike w) as [(c & _ & ->)|[_ Hw]];
        [now rewrite Ha | exact Hw].
    + intros c Hv. rewrite (verifyToken_admits _ _ _ _ Hv). now apply Ha.
  - split.
    + destruct (verifyToken_cases req update_bike w) as [(c & _ & ->)|[_ Hw]];
        [now rewrite Hu | exact Hw].
    + intros c Hv. rewrite (verifyToken_admits _ _ _ _ Hv). now apply Hu.
Qed.

(** C10. [verifyToken] takes the second space-separated piece of the
    Authorization header as the token and never looks at the first.
    A header value without a space has no second piece, so the request is
    answered 401 for lack of a token, a bare token included. For a header
    [scheme t ...] the piece [t] is the token whatever [scheme] is: an
    empty [t] counts as no token, any other [t] goes to [jwt.verify]. *)
Theorem bearer_is_second_segment
    (req : Request) (next : Request -> Handler) (w : World S) :
  (forall v, header (headers req) "authorization" = VStr v ->
     has_char " " v = false ->
     verifyToken env req next w = (json 401 (error_body "No token provided"), w))
  /\ (forall scheme t rest,
        header (headers req) "authorization" = VStr (scheme ++ " " ++ t ++ rest) ->
        has_char " " scheme = false -> has_char " " t = false ->
        rest = "" \/ (exists r, rest = String " " r) ->
        bearer req = VStr t
        /\ verifyToken env req next w
           = if (t =? "")%string
             then (json 401 (error_body "No token provided"), w)
             else match Jwt.verify (VStr t) secret (clock w) with
                  | Jwt.Decoded c => next (set_user req c) w
                  | Jwt.Thrown _ => (json 401 (error_body "Invalid token"), w)
                  end).
Proof.
  split.
  - intros v Hh Hv. apply verifyToken_no_token. unfold bearer. rewrite Hh.
    destruct (truthy (VStr v)) eqn:Htv; [|exact Htv].
    unfold split_index. now rewrite (JsFacts.split_whole _ _ Hv).
  - intros scheme t rest Hh Hs Ht Hrest.
    assert (Hb : bearer req = VStr t).
    { unfold bearer. rewrite Hh.
      assert (Htr : truthy (VStr (scheme ++ " " ++ t ++ rest)) = true).
      { simpl. destruct scheme; reflexivity. }
      rewrite Htr. unfold split_index.
      change (scheme ++ " " ++ t ++ rest)%string
        with (scheme ++ String " " (t ++ rest))%string.
      rewrite (JsFacts.split_first _ _ _ Hs).
      destruct Hrest as [-> | [r ->]].
      - replace (t ++ "")%string with t
          by (clear; induction t; simpl; congruence).
        now rewrite (JsFacts.split_whole _ _ Ht).
      - now rewrite (JsFacts.split_first _ _ _ Ht). }
    split; [exact Hb|].
    unfold verifyToken. rewrite Hb. simpl truthy.
    destruct (t =? "")%string; reflexivity.
Qed.

(** When the hash comparison runs and says no, which takes a password that
    is a string, the login is answered like one whose username finds no
    administrator: 401 with the one body [Invalid username or password]. *)
Lemma login_failures_indistinguishable
    (req1 req2 : Request) (w1 w2 : World S)
    (user0 : Admin.t) (others : list Admin.t) :
  fst (run SelectAdminByUsername [get (body req1) "username"] (store w1))
    = Rows (user0 :: others) ->
  Bcrypt.compare (get (body req1) "password") (VStr (Admin.password user0))
    = Some false ->
  fst (run SelectAdminByUsername [get (body req2) "username"] (store w2))
    = Rows [] ->
  fst (login env req1 w1) = json 401 (error_body "Invalid username or password")
  /\ fst (login env req2 w2) = fst (login env req1 w1).
Proof.
  intros Hq1 Hm Hq2. unfold login, query.
  destruct (run SelectAdminByUsername _ (store w1)) as [r1 s1]. simpl in Hq1. subst r1.
  destruct (run SelectAdminByUsername _ (store w2)) as [r2 s2]. simpl in Hq2. subst r2.
  rewrite Hm. split; reflexivity.
Qed.

(** C2. A token made by the signing step of login for an administrator,
    presented to the verify-token handler before one day has passed since
    it was issued, is accepted: 200, [valid: true], and claims that carry
    the administrator's id and username as they were signed. The token a
    successful login sends is the one of the signing step, made for the
    row the lookup returned at the time of the login. *)
Theorem issued_token_verifies
    (user0 : Admin.t) (issued_at : Z) (req : Request) (w : World S) :
  get (body req) "token" = VStr (issue_token env user0 issued_at) ->
  clock w < issued_at + Jwt.one_day ->
  (exists c,
     verify_token env req w
     = (json 200 (JObj [("valid", JBool true); ("user", Jwt.claims_json c)]), w)
     /\ Jwt.userId c = Admin.id user0
     /\ Jwt.username c = Admin.username user0
     /\ Jwt.iat c = issued_at
     /\ Jwt.exp c = Some (issued_at + 86400))
  /\ (forall req0 w0 others,
        clock w0 = issued_at ->
        fst (run SelectAdminByUsername [get (body req0) "username"] (store w0))
          = Rows (user0 :: others) ->
        Bcrypt.compare (get (body req0) "password") (VStr (Admin.password user0))
          = Some true ->
        fst (login env req0 w0)
        = json 200 (JObj [("message", JStr "Login successful");
                          ("token", JStr (issue_token env user0 issued_at))])).
Proof.
  intros Hb Hlt. split.
  - exists {| Jwt.userId := Admin.id user0; Jwt.username := Admin.username user0;
              Jwt.iat := issued_at; Jwt.exp := Some (issued_at + Jwt.one_day) |}.
    repeat split. unfold verify_token. rewrite Hb. unfold issue_token.
    rewrite JwtFacts.sign_truthy. cbn [negb].
    now rewrite (JwtFacts.verify_sign _ _ _ _ _ _ Hlt).
  - intros req0 w0 others <- Hq Hm.
    exact (login_success req0 w0 user0 others Hq Hm).
Qed.

(** The answer of the verify-token handler and of [verifyToken] to a
    token that is a string, by whether the token is acceptable. *)
Lemma verify_token_on_string (req : Request) (w : World S) (t : string) :
  get (body req) "token" = VStr t ->
  if Jwt.acceptable secret (clock w) t
  then exists p, Jwt.payload_of t = Some p
         /\ verify_token env req w
            = (json 200 (JObj [("valid", JBool true); ("user", Jwt.content p)]), w)
  else verify_token env req w
       = (json 401 (error_body (if (t =? "")%string then "No token provided"
                                else "Invalid token")), w).
Proof.
  intros Hb. unfold verify_token. rewrite Hb.
  destruct (Jwt.acceptable secret (clock w) t) eqn:Ha.
  - destruct (JwtFacts.verify_accepted _ _ _ Ha) as (p & Hp & Hv).
    exists p. split; [exact Hp|].
    destruct (truthy (VStr t)) eqn:Ht; cbn [negb]; [now rewrite Hv|].
    unfold Jwt.verify in Hv. rewrite Ht in Hv. discriminate.
  - destruct (JwtFacts.verify_thrown _ _ _ Ha) as [e He].
    cbn [truthy]. destruct (t =? "")%string; cbn [negb]; [reflexivity|].
    now rewrite He.
Qed.

Lemma verifyToken_on_string (req : Request) (next : Request -> Handler)
    (w : World S) (t : string) :
  bearer req = VStr t ->
  if Jwt.acceptable secret (clock w) t
  then exists p, Jwt.payload_of t = Some p
         /\ verifyToken env req next w = next (set_user req p) w
  else verifyToken env req next w
       = (json 401 (error_body (if (t =? "")%string then "No token provided"
                                else "Invalid token")), w).
Proof.
  intros Hb. destruct (Jwt.acceptable secret (clock w) t) eqn:Ha.
  - destruct (JwtFacts.verify_accepted _ _ _ Ha) as (p & Hp & Hv).
    exists p. split; [exact Hp|]. apply verifyToken_admits. now rewrite Hb.
  - destruct (JwtFacts.verify_thrown _ _ _ Ha) as [e He].
    unfold verifyToken. rewrite Hb.
    cbn [truthy]. destruct (t =? "")%string; cbn [negb]; [reflexivity|].
    now rewrite He.
Qed.

(** C4, as the library has it. A token that is a string is accepted exactly
    when it is well-formed, its signature is the MAC under the process-wide
    secret, its [nbf] and [exp], where it has them, are numbers, the clock
    has reached its [nbf] and has not reached its [exp]. The verify-token
    handler then answers 200 with the payload, and [verifyToken] hands the
    request on with the payload attached; otherwise both answer 401 and
    leave the world alone, with the body [Invalid token] unless the token
    is the empty string. In particular an accepted token whose signature is
    replaced by anything else, such as the signature with one byte flipped,
    is answered 401 [Invalid token]. *)
Theorem verify_token_accepts_iff (req : Request) (w : World S) (t : string) :
  get (body req) "token" = VStr t ->
  let refusal :=
    (json 401 (error_body (if (t =? "")%string then "No token provided"
                           else "Invalid token")), w) in
  (status (fst (verify_token env req w)) = 200
   <-> Jwt.well_formed t = true /\ Jwt.signature_matches secret t = true
       /\ Jwt.ill_typed_dates t = false
       /\ Jwt.not_yet_active (clock w) t = false
       /\ Jwt.expiry_passed (clock w) t = false)
  /\ (if Jwt.acceptable secret (clock w) t
      then exists p, Jwt.payload_of t = Some p
             /\ verify_token env req w
                = (json 200 (JObj [("valid", JBool true); ("user", Jwt.content p)]), w)
      else verify_token env req w = refusal)
  /\ (forall req' next, bearer req' = VStr t ->
        if Jwt.acceptable secret (clock w) t
        then exists p, Jwt.payload_of t = Some p
               /\ verifyToken env req' next w = next (set_user req' p) w
        else verifyToken env req' next w = refusal)
  /\ (forall h p s s' c req',
        t = (h ++ "." ++ p ++ "." ++ s)%string ->
        Jwt.segments t = Some (h, p, s) ->
        Jwt.verify (VStr t) secret (clock w) = Jwt.Decoded c ->
        (s' <> s \/ exists i, (i < String.length s)%nat /\ s' = flip_byte i s) ->
        get (body req') "token" = VStr (h ++ "." ++ p ++ "." ++ s') ->
        verify_token env req' w = (json 401 (error_body "Invalid token"), w)).
Proof.
  intros Hb. cbv zeta.
  pose proof (verify_token_on_string req w t Hb) as Hh.
  split; [|split; [exact Hh|split]].
  - unfold Jwt.acceptable in Hh.
    destruct (Jwt.well_formed t), (Jwt.signature_matches secret t),
      (Jwt.ill_typed_dates t), (Jwt.not_yet_active (clock w) t),
      (Jwt.expiry_passed (clock w) t); cbn [andb negb] in Hh;
      try (rewrite Hh; cbn; split; [discriminate | intuition discriminate]).
    destruct Hh as (p & _ & ->). cbn. now repeat split.
  - intros req' next Hb'. exact (verifyToken_on_string req' next w t Hb').
  - intros h p s s' c req' -> Hseg Hv Hch Hb'.
    assert (Hne : s' <> s).
    { destruct Hch as [Hne | (i & Hi & ->)];
        [exact Hne | now apply JsFacts.flip_byte_changes]. }
    destruct (JwtFacts.verify_tampered h p s s' secret (clock w) c Hv Hseg Hne)
      as [e He].
    unfold verify_token. rewrite Hb'.
    assert (Htr : truthy (VStr (h ++ "." ++ p ++ "." ++ s')) = true).
    { simpl. destruct h; reflexivity. }
    rewrite Htr. cbn [negb]. now rewrite He.
Qed.

(** A login with a password that is no string, for a username that finds
    an administrator, is answered 500; for a username that finds none it
    is answered 401. *)
Lemma login_password_not_string (req : Request) (w : World S) :
  (forall s, get (body req) "password" <> VStr s) ->
  fst (login env req w)
  = match fst (run SelectAdminByUsername [get (body req) "username"] (store w)) with
    | Rows [] => json 401 (error_body "Invalid username or password")
    | Rows (_ :: _) => json 500 (error_body "Server error")
    | Throws => json 500 (error_body "Server error")
    end.
Proof.
  intros Hp. unfold login, query.
  destruct (run SelectAdminByUsername _ (store w)) as [[[|user0 rest]|] s'];
    try reflexivity.
  cbn [fst]. unfold Bcrypt.compare.
  destruct (get (body req) "password") as [| |b|n|s|o]; try reflexivity.
  now elim (Hp s).
Qed.

End Handlers.

(* ================================================================= *)
(** ** The handlers on the reference store *)

Module PgFacts.
Import Js Pg.

Lemma insert_newest_first_perm (c : Contact.t) (l : list Contact.t) :
  Permutation (c :: l) (insert_newest_first c l).
Proof.
  induction l as [|d l IH]; simpl; [reflexivity|].
  destruct (Contact.submitted_at d <? Contact.submitted_at c); [reflexivity|].
  rewrite perm_swap. now apply perm_skip.
Qed.

Lemma order_by_perm (l : list Contact.t) :
  Permutation l (order_by_submitted_at_desc l).
Proof.
  induction l as [|c l IH]; simpl; [reflexivity|].
  rewrite <- insert_newest_first_perm. now apply perm_skip.
Qed.

Lemma insert_newest_first_sorted (c : Contact.t) (l : list Contact.t) :
  StronglySorted not_older l -> StronglySorted not_older (insert_newest_first c l).
Proof.
  induction 1 as [|d l Hl IH Hd]; simpl.
  - repeat constructor.
  - destruct (Z.ltb_spec (Contact.submitted_at d) (Contact.submitted_at c)) as [Hlt|Hge].
    + constructor; [now constructor|].
      constructor; [unfold not_older; lia|].
      eapply Forall_impl; [|exact Hd]. unfold not_older. intros; lia.
    + constructor; [exact IH|].
      eapply Permutation_Forall; [apply insert_newest_first_perm|].
      constructor; [unfold not_older; lia | exact Hd].
Qed.

Lemma order_by_sorted (l : list Contact.t) :
  StronglySorted not_older (order_by_submitted_at_desc l).
Proof.
  induction l as [|c l IH]; simpl; [constructor|].
  now apply insert_newest_first_sorted.
Qed.

(** Without two equal times, newest first is strictly so. *)
Lemma sorted_distinct_strict (l : list Contact.t) :
  StronglySorted not_older l ->
  NoDup (map Contact.submitted_at l) ->
  StronglySorted newer l.
Proof.
  induction 1 as [|d l Hl IH Hd]; simpl; intros Hnd; [constructor|].
  inversion Hnd as [|x xs Hnotin Hnd']; subst.
  constructor; [now apply IH|].
  rewrite Forall_forall in *. intros b Hb.
  specialize (Hd b Hb). unfold not_older in Hd. unfold newer.
  assert (Contact.submitted_at b <> Contact.submitted_at d).
  { intros Heq. apply Hnotin. rewrite <- Heq. now apply in_map. }
  lia.
Qed.

End PgFacts.

(** ** Numbers, their text, and the text as an [integer] column reads it *)

Module NumberFacts.
Import Js JsFacts Pg.

Lemma round_double_small (a : Z) : a <= two53 -> round_double a = a.
Proof.
  intros Ha. unfold round_double. destruct (Z.leb_spec a two53); [reflexivity | lia].
Qed.

Lemma two53_is_finite : (Z.shiftl 1 1024 <=? two53) = false.
Proof. reflexivity. Qed.

Lemma to_number_small (z : Z) : Z.abs z <= two53 -> to_number z = Int z.
Proof.
  intros Hz. unfold to_number. rewrite (round_double_small _ Hz).
  destruct (Z.leb_spec (Z.shiftl 1 1024) (Z.abs z)) as [Hbig|_].
  - pose proof two53_is_finite as Hf. apply Z.leb_gt in Hf. lia.
  - f_equal. destruct z; cbn; lia.
Qed.

(** [parseInt] returns an integer, an infinity or [NaN]. *)
Lemma parseInt_whole (s : string) (text : string) : parseInt s <> Frac text.
Proof.
  unfold parseInt. destruct (strip_sign (trim_start s)) as [sign s2].
  destruct (match s2 with
            | String "0" (String "x" r) => (16, r)
            | String "0" (String "X" r) => (16, r)
            | _ => (10, s2)
            end) as [radix s3].
  destruct (starts_with_digit radix s3); [|discriminate].
  unfold to_number. destruct (_ <=? _); discriminate.
Qed.

(** The text of a number in decimal is a string of digits, with [-] in
    front of it for a negative number. *)
Lemma digit_string_uint (u : Decimal.uint) :
  digit_string (NilEmpty.string_of_uint u) = true.
Proof. induction u; (reflexivity || exact IHu). Qed.

Lemma read_digits_uint_acc (u : Decimal.uint) (p : positive) :
  read_digits 10 (Zpos p) (NilEmpty.string_of_uint u)
  = (Zpos (Pos.of_uint_acc u p), EmptyString).
Proof.
  revert p; induction u as [|u IH|u IH|u IH|u IH|u IH|u IH|u IH|u IH|u IH|u IH];
    intros p; [reflexivity|..];
    cbn [NilEmpty.string_of_uint read_digits Pos.of_uint_acc];
    match goal with
    | |- context [digit_value 10 ?c] =>
        let v := eval vm_compute in (digit_value 10 c) in
        change (digit_value 10 c) with v
    end;
    cbv iota; rewrite <- IH; f_equal; lia.
Qed.

Lemma read_digits_uint (u : Decimal.uint) :
  read_digits 10 0 (NilEmpty.string_of_uint u)
  = (Z.of_N (Pos.of_uint u), EmptyString).
Proof.
  induction u as [|u IH|u IH|u IH|u IH|u IH|u IH|u IH|u IH|u IH|u IH];
    [reflexivity | exact IH |..];
    cbn [NilEmpty.string_of_uint read_digits Pos.of_uint];
    match goal with
    | |- context [digit_value 10 ?c] =>
        let v := eval vm_compute in (digit_value 10 c) in
        change (digit_value 10 c) with v
    end;
    cbv iota; apply read_digits_uint_acc.
Qed.

Lemma decimal_positive (p : positive) :
  decimal (Zpos p) = NilEmpty.string_of_uint (Pos.to_uint p)
  /\ decimal (Zneg p) = String "-" (NilEmpty.string_of_uint (Pos.to_uint p))
  /\ NilEmpty.string_of_uint (Pos.to_uint p) <> EmptyString
  /\ read_digits 10 0 (NilEmpty.string_of_uint (Pos.to_uint p)) = (Zpos p, EmptyString).
Proof.
  pose proof (DecimalPos.Unsigned.to_uint_nonnil p) as Hn.
  pose proof (read_digits_uint (Pos.to_uint p)) as Hr.
  rewrite DecimalPos.Unsigned.of_to in Hr.
  unfold decimal. cbn [Z.to_int NilZero.string_of_int].
  replace (NilZero.string_of_uint (Pos.to_uint p))
    with (NilEmpty.string_of_uint (Pos.to_uint p))
    by (destruct (Pos.to_uint p); [now elim Hn | reflexivity..]).
  repeat split; trivial.
  destruct (Pos.to_uint p); [now elim Hn | discriminate..].
Qed.

(** A digit string as the store reads it. *)
Lemma digits_plain (a : string) (seen : bool) (acc : Z) :
  digit_string a = true ->
  digits 10 true seen acc a
  = Some (fst (read_digits 10 acc a), EmptyString, seen || negb (a =? "")%string).
Proof.
  revert seen acc; induction a as [|c a IH]; intros seen acc Ha.
  - cbn. now rewrite orb_false_r.
  - cbn [digits read_digits digit_string] in *.
    destruct (digit_value 10 c); [|discriminate].
    rewrite (IH true _ Ha). cbn. now rewrite orb_true_r.
Qed.

Lemma digit_no_prefix (c : ascii) (d : Z) :
  digit_value 10 c = Some d -> prefix_radix c = None.
Proof.
  destruct c as [[] [] [] [] [] [] [] []]; (reflexivity || discriminate).
Qed.

Lemma unsigned_syntax_plain (a : string) :
  digit_string a = true -> a <> EmptyString ->
  unsigned_syntax a = Some (fst (read_digits 10 0 a)).
Proof.
  intros Ha Hne. unfold unsigned_syntax.
  assert (Hread : match a with
                  | String "0" (String c r) =>
                      match prefix_radix c with
                      | Some radix => digits radix false false 0 r
                      | None => digits 10 true false 0 a
                      end
                  | _ => digits 10 true false 0 a
                  end = digits 10 true false 0 a).
  { destruct a as [|c1 [|c2 r]];
      [reflexivity | destruct c1 as [[] [] [] [] [] [] [] []]; reflexivity |].
    cbn [digit_string] in Ha.
    destruct (digit_value 10 c1); [|discriminate].
    destruct (digit_value 10 c2) as [d2|] eqn:H2; [|discriminate].
    rewrite (digit_no_prefix _ _ H2).
    destruct c1 as [[] [] [] [] [] [] [] []]; reflexivity. }
  rewrite Hread, (digits_plain a false 0 Ha).
  destruct a; [now elim Hne | reflexivity].
Qed.

(** A sign and then a digit: no space is skipped and the sign is read. *)
Lemma integer_syntax_signed (c : ascii) (r : string) (d : Z) :
  digit_value 10 c = Some d ->
  integer_syntax (String c r)
  = match unsigned_syntax (String c r) with
    | Some m => Some (false, m)
    | None => None
    end
  /\ integer_syntax (String "-" (String c r))
     = match unsigned_syntax (String c r) with
       | Some m => Some (true, m)
       | None => None
       end.
Proof.
  intros Hd. split; [|reflexivity].
  destruct c as [[] [] [] [] [] [] [] []]; try discriminate Hd; reflexivity.
Qed.

Lemma integer_syntax_plain (a : string) :
  digit_string a = true -> a <> EmptyString ->
  integer_syntax a = Some (false, fst (read_digits 10 0 a))
  /\ integer_syntax (String "-" a) = Some (true, fst (read_digits 10 0 a)).
Proof.
  intros Ha Hne. pose proof (unsigned_syntax_plain a Ha Hne) as Hu.
  destruct a as [|c r]; [now elim Hne|].
  cbn [digit_string] in Ha. destruct (digit_value 10 c) as [d|] eqn:Hd; [|discriminate].
  destruct (integer_syntax_signed c r d Hd) as [-> ->]. now rewrite Hu.
Qed.

(** A digit and then a point or an [e]: not an integer. *)
Lemma integer_syntax_fraction (c x : ascii) (r : string) (d : Z) :
  digit_value 10 c = Some d -> x = "."%char \/ x = "e"%char ->
  integer_syntax (String c (String x r)) = None
  /\ integer_syntax (String "-" (String c (String x r))) = None.
Proof.
  intros Hd Hx.
  destruct (integer_syntax_signed c (String x r) d Hd) as [-> ->].
  assert (Hu : unsigned_syntax (String c (String x r)) = None).
  { unfold unsigned_syntax.
    destruct Hx as [-> | ->];
      destruct c as [[] [] [] [] [] [] [] []]; try discriminate Hd; reflexivity. }
  now rewrite Hu.
Qed.

(** The decimal text of an integer is read as that integer, when the
    column holds it. *)
Lemma int4in_decimal (z : Z) :
  int4in (decimal z) = if in_int4 z then Some z else None.
Proof.
  unfold int4in. destruct z as [|p|p]; [reflexivity|..];
    destruct (decimal_positive p) as (Hp & Hm & Hne & Hr).
  - rewrite Hp.
    rewrite (proj1 (integer_syntax_plain _ (digit_string_uint _) Hne)), Hr.
    reflexivity.
  - rewrite Hm.
    rewrite (proj2 (integer_syntax_plain _ (digit_string_uint _) Hne)), Hr.
    reflexivity.
Qed.

(** What [closest] returns is one of the candidates. *)
Lemma closest_in (x : Z) (l : list (Z * Z)) (c : Z * Z) :
  closest x l = Some c -> In c l.
Proof.
  destruct l as [|c0 l]; [discriminate|]. cbn [closest]. intros [= <-].
  revert c0. induction l as [|d l IH]; intros c0; [now left|].
  cbn [fold_left]. destruct (IH (closer x c0 d)) as [Heq|Hin].
  - rewrite <- Heq. unfold closer. destruct (_ || _); cbn; auto.
  - right; right; exact Hin.
Qed.

(** The digits that [shortest] finds denote the number. *)
Lemma shortest_sound (fuel : nat) (k x m s e : Z) :
  0 < k ->
  shortest fuel k x m = Some (s, e) ->
  0 < s /\ 0 <= e /\ round_double (s * 10 ^ e) = x.
Proof.
  revert k; induction fuel as [|f IH]; intros k Hk; [discriminate|].
  cbn [shortest].
  destruct (closest x (candidates x k m)) as [c|] eqn:Hc.
  - intros [= ->]. apply closest_in in Hc. unfold candidates in Hc.
    apply filter_In in Hc as [_ Hc].
    rewrite !andb_true_iff in Hc. destruct Hc as [[[He Hlo] _] Hx].
    apply Z.leb_le in He, Hlo. apply Z.eqb_eq in Hx.
    assert (0 < 10 ^ (k - 1)) by (apply Z.pow_pos_nonneg; lia).
    repeat split; (lia || assumption).
  - apply IH. lia.
Qed.

(** The text of a double beyond 2^53 is not the text of a value of the
    type [integer]. *)
Lemma int4in_big_text (x : Z) :
  two53 < x ->
  int4in (big_text x) = None /\ int4in (String "-" (big_text x)) = None.
Proof.
  intros Hx.
  assert (Hplain : forall a, digit_string a = true -> a <> EmptyString ->
            two53 < fst (read_digits 10 0 a) ->
            int4in a = None /\ int4in (String "-" a) = None).
  { intros a Ha Hne Hv. unfold int4in.
    destruct (integer_syntax_plain a Ha Hne) as [-> ->].
    unfold in_int4, two53 in *.
    split.
    - destruct (Z.leb_spec (fst (read_digits 10 0 a)) 2147483647); [lia|].
      now rewrite andb_false_r.
    - destruct (Z.leb_spec (-2147483648) (- fst (read_digits 10 0 a))); [lia|].
      reflexivity. }
  assert (Hdec : forall v, 0 < v ->
            exists a, decimal v = a /\ digit_string a = true /\ a <> EmptyString
                      /\ read_digits 10 0 a = (v, EmptyString)).
  { intros v Hv. destruct v as [|p|p]; try lia.
    destruct (decimal_positive p) as (Hp & _ & Hne & Hr).
    exists (NilEmpty.string_of_uint (Pos.to_uint p)).
    repeat split; trivial. apply digit_string_uint. }
  unfold big_text.
  destruct (shortest 17 1 x _) as [[s e]|] eqn:Hs.
  - apply shortest_sound in Hs as (Hs & He & Hround); [|lia].
    destruct (Hdec s Hs) as (a & -> & Ha & Hne & Hr).
    destruct (_ <=? 21).
    + apply Hplain.
      * now rewrite digit_string_append, Ha, digit_string_zeros.
      * destruct a; [now elim Hne | discriminate].
      * rewrite (read_digits_append _ _ _ Ha), Hr. cbn [fst].
        rewrite read_digits_zeros. cbn [fst]. rewrite Z2Nat.id by exact He.
        destruct (Z.le_gt_cases (s * 10 ^ e) two53) as [Hle|Hgt]; [|lia].
        rewrite (round_double_small _ Hle) in Hround. lia.
    + destruct a as [|c r]; [now elim Hne|].
      cbn [digit_string] in Ha.
      destruct (digit_value 10 c) as [d|] eqn:Hd; [|discriminate].
      destruct r as [|c' r'].
      * unfold int4in. cbn [append].
        match goal with
        | |- context [integer_syntax (String c (String "e" ?rest))] =>
            destruct (integer_syntax_fraction c "e" rest d Hd (or_intror eq_refl))
              as [-> ->]
        end.
        now split.
      * unfold int4in. cbn [append].
        match goal with
        | |- context [integer_syntax (String c (String "." ?rest))] =>
            destruct (integer_syntax_fraction c "." rest d Hd (or_introl eq_refl))
              as [-> ->]
        end.
        now split.
  - destruct (Hdec x ltac:(unfold two53 in Hx; lia)) as (a & -> & Ha & Hne & Hr).
    apply Hplain; trivial. now rewrite Hr.
Qed.

(** What the store makes of a number bound where an [id] is compared:
    the integer itself when it is a value of the column's type, and an
    error otherwise. *)
Lemma int4in_number (z : Z) :
  int4in (num_to_string (Int z)) = if in_int4 z then Some z else None.
Proof.
  cbn [num_to_string].
  destruct (Z.leb_spec (Z.abs z) two53) as [Hle|Hgt]; [apply int4in_decimal|].
  assert (Hout : in_int4 z = false).
  { unfold in_int4, two53 in *.
    destruct (Z.leb_spec (-2147483648) z), (Z.leb_spec z 2147483647);
      (reflexivity || lia). }
  rewrite Hout.
  destruct (Z.ltb_spec z 0).
  - apply (int4in_big_text (- z)). lia.
  - apply (int4in_big_text z). lia.
Qed.

Lemma id_param_number (n : JsNum) :
  (forall text, n <> Frac text) ->
  id_param (VNum n)
  = match n with
    | Int z => if in_int4 z then IdValue z else IdInvalid
    | _ => IdInvalid
    end.
Proof.
  intros Hn. unfold id_param. cbn [text_of].
  destruct n as [|z|[|]|text]; try reflexivity.
  - rewrite int4in_number. now destruct (in_int4 z).
  - now elim (Hn text).
Qed.

Lemma id_param_parseInt (s : string) :
  id_param (VNum (parseInt s))
  = match parseInt s with
    | Int z => if in_int4 z then IdValue z else IdInvalid
    | _ => IdInvalid
    end.
Proof. apply id_param_number. intros text. apply parseInt_whole. Qed.

(** The decimal text of an integer up to 2^53 parses back to it. *)
Lemma parseInt_plain (a : string) :
  digit_string a = true -> a <> EmptyString ->
  parseInt a = to_number (fst (read_digits 10 0 a))
  /\ parseInt (String "-" a) = to_number (- fst (read_digits 10 0 a)).
Proof.
  intros Ha Hne. destruct a as [|c r]; [now elim Hne|].
  pose proof Ha as Ha'. cbn [digit_string] in Ha.
  destruct (digit_value 10 c) as [d|] eqn:Hd; [|discriminate].
  destruct (digit_is_ascii _ _ _ Hd) as [Hlt Hsp].
  assert (Hsign : strip_sign (String c r) = (1, String c r)).
  { destruct c as [[] [] [] [] [] [] [] []]; try discriminate Hd; reflexivity. }
  assert (Hradix : match String c r with
                   | String "0" (String "x" r') => (16, r')
                   | String "0" (String "X" r') => (16, r')
                   | _ => (10, String c r)
                   end = (10, String c r)).
  { destruct r as [|c2 r2];
      [destruct c as [[] [] [] [] [] [] [] []]; reflexivity|].
    cbn [digit_string] in Ha.
    destruct (digit_value 10 c2) as [d2|] eqn:H2; [|discriminate].
    destruct c as [[] [] [] [] [] [] [] []]; try reflexivity;
      destruct c2 as [[] [] [] [] [] [] [] []]; try discriminate H2; reflexivity. }
  assert (Hstart : starts_with_digit 10 (String c r) = true).
  { cbn. now rewrite Hd. }
  split; unfold parseInt.
  - rewrite (trim_start_ascii c r Hlt Hsp), Hsign, Hradix, Hstart.
    f_equal; lia.
  - rewrite (trim_start_ascii "-" (String c r)) by reflexivity.
    cbn [strip_sign]. rewrite Hradix, Hstart. f_equal; lia.
Qed.


Lemma in_int4_small (z : Z) : in_int4 z = true -> Z.abs z <= two53.
Proof.
  unfold in_int4, two53. intros Hz. apply andb_true_iff in Hz as [Hlo Hhi].
  apply Z.leb_le in Hlo, Hhi. lia.
Qed.

(** A string of decimal digits that denotes a value of the type
    [integer] is read alike by the store and by [parseInt]. *)
Lemma plain_id_read_alike (a : string) :
  digit_string a = true -> a <> EmptyString ->
  in_int4 (fst (read_digits 10 0 a)) = true ->
  int4in a = Some (fst (read_digits 10 0 a))
  /\ parseInt a = Int (fst (read_digits 10 0 a)).
Proof.
  intros Ha Hne Hr. split.
  - unfold int4in. rewrite (proj1 (integer_syntax_plain a Ha Hne)). now rewrite Hr.
  - rewrite (proj1 (parseInt_plain a Ha Hne)).
    apply to_number_small, in_int4_small, Hr.
Qed.

End NumberFacts.



Section OnPg.
Import Js Db Server.
#[local] Existing Instance Pg.store.

(** GET /api/bikes/:id on the reference store: the first listing with the
    parsed id when the id is a value of the column's type, 404 when there
    is none, and 500 for what is no such value. *)
Lemma get_bike_on_pg (req : Request) (w : World Pg.t) :
  fst (get_bike req w)
  = match parseInt (id (params req)) with
    | Int z =>
        if Pg.in_int4 z
        then match filter (Pg.has_id z) (Pg.bikes (store w)) with
             | [] => json 404 (error_body "Bike not found")
             | row :: _ => json 200 (Bike.json row)
             end
        else json 500 (error_body "Server error")
    | _ => json 500 (error_body "Server error")
    end.
Proof.
  unfold get_bike, query. cbn [run Pg.store Pg.exec].
  rewrite NumberFacts.id_param_parseInt.
  destruct (parseInt (id (params req))) as [|z|neg|text]; try reflexivity.
  destruct (Pg.in_int4 z); [|reflexivity]. cbn [fst].
  destruct (filter (Pg.has_id z) (Pg.bikes (store w))); reflexivity.
Qed.

(** DELETE /api/bikes/:id on the reference store, likewise, with the
    listings of the parsed id taken out of the table. *)
Lemma delete_bike_on_pg (req : Request) (w : World Pg.t) :
  let n := parseInt (id (params req)) in
  let failed := (json 500 (error_body "Server error"),
                 {| store := store w;
                    issued := issued w ++ [(text DeleteBike, [VNum n])];
                    clock := clock w |}) in
  delete_bike req w
  = match n with
    | Int z =>
        if Pg.in_int4 z
        then (match filter (Pg.has_id z) (Pg.bikes (store w)) with
              | [] => json 404 (error_body "Bike not found")
              | _ :: _ => json 200 (JObj [("message", JStr "Bike deleted successfully")])
              end,
              {| store := Pg.set_bikes (store w)
                            (filter (fun b => negb (Pg.has_id z b)) (Pg.bikes (store w)))
                            (Pg.bikes_id_seq (store w));
                 issued := issued w ++ [(text DeleteBike, [VNum n])];
                 clock := clock w |})
        else failed
    | _ => failed
    end.
Proof.
  cbv zeta. unfold delete_bike, query. cbn [run Pg.store Pg.exec].
  rewrite NumberFacts.id_param_parseInt.
  destruct (parseInt (id (params req))) as [|z|neg|text]; try reflexivity.
  destruct (Pg.in_int4 z); [|reflexivity].
  destruct (filter (Pg.has_id z) (Pg.bikes (store w))); reflexivity.
Qed.

(** C1, as the code has it. GET and DELETE /api/bikes/:id read the id
    segment with [parseInt] and bind the number to the statement; what
    follows the leading integer of the segment is never looked at. On the
    reference store the answer is the 404 [Bike not found] exactly when
    the segment parses to an integer that the id column can hold and no
    listing has; it is 200, for the listing with that id, when a listing
    has it; it is 500 [Server error] exactly when the segment parses to no
    such integer ([NaN], an infinity, an integer outside the column's
    range); it is never 400. Two segments that parse to the same number
    are answered alike. *)
Theorem bike_by_id_not_found_iff (req : Request) (w : World Pg.t) :
  let n := parseInt (id (params req)) in
  let rows z := filter (Pg.has_id z) (Pg.bikes (store w)) in
  (fst (get_bike req w) = json 404 (error_body "Bike not found")
   <-> exists z, n = Int z /\ Pg.in_int4 z = true /\ rows z = [])
  /\ (fst (delete_bike req w) = json 404 (error_body "Bike not found")
      <-> exists z, n = Int z /\ Pg.in_int4 z = true /\ rows z = [])
  /\ (forall z,
        n = Int z -> Pg.in_int4 z = true -> rows z <> [] ->
        (exists row, In row (Pg.bikes (store w)) /\ Bike.id row = z
                     /\ fst (get_bike req w) = json 200 (Bike.json row))
        /\ fst (delete_bike req w)
           = json 200 (JObj [("message", JStr "Bike deleted successfully")]))
  /\ (fst (get_bike req w) = json 500 (error_body "Server error")
      <-> forall z, n = Int z -> Pg.in_int4 z = false)
  /\ (fst (delete_bike req w) = json 500 (error_body "Server error")
      <-> forall z, n = Int z -> Pg.in_int4 z = false)
  /\ status (fst (get_bike req w)) <> 400
  /\ status (fst (delete_bike req w)) <> 400
  /\ (forall req', parseInt (id (params req')) = n ->
        get_bike req' w = get_bike req w /\ delete_bike req' w = delete_bike req w).
Proof.
  cbv zeta.
  assert (Hsame : forall req',
            parseInt (id (params req')) = parseInt (id (params req)) ->
            get_bike req' w = get_bike req w
            /\ delete_bike req' w = delete_bike req w).
  { intros req' Hp. unfold get_bike, delete_bike. now rewrite Hp. }
  pose proof (get_bike_on_pg req w) as Hg.
  pose proof (delete_bike_on_pg req w) as Hd. cbv zeta in Hd.
  apply (f_equal fst) in Hd.
  destruct (parseInt (id (params req))) as [|z|neg|text] eqn:Hn;
    [|destruct (Pg.in_int4 z) eqn:Hr;
      [destruct (filter (Pg.has_id z) (Pg.bikes (store w))) as [|row0 rest0] eqn:Hf|]|..];
    cbn [fst] in Hd; rewrite Hg, Hd; clear Hg Hd;
    repeat match goal with |- _ /\ _ => split end;
    try exact Hsame;
    try (cbn; discriminate);
    try (split; [discriminate|];
         intros (z' & Hz & Hr' & Hf');
         first [discriminate Hz | injection Hz as <-; congruence]);
    try (split; [intros _; exists z; auto | reflexivity]);
    try (split; [|reflexivity];
         intros _ z' Hz; first [discriminate Hz | injection Hz as <-; assumption]);
    try (split; [discriminate|];
         intros Hall; specialize (Hall z eq_refl); congruence);
    intros z' Hz Hr' Hf';
    first [discriminate Hz | injection Hz as <-];
    first [congruence | split; [|reflexivity]].
  exists row0.
  assert (Hin : In row0 (filter (Pg.has_id z) (Pg.bikes (store w))))
    by (rewrite Hf; now left).
  apply filter_In in Hin as [Hin Hid]. unfold Pg.has_id in Hid.
  apply Z.eqb_eq in Hid. now repeat split.
Qed.

(** C8. On the reference store, whatever rows the contact submissions
    table holds (three or more included), as long as no two of them have
    the same submission time, the list handler answers 200 with all of
    them, each once, in strictly descending order of submission time.
    Behind [verifyToken] the route gives the same answer to an admitted
    request. *)
Theorem contact_submissions_newest_first
    (req : Request) (w : World Pg.t) :
  NoDup (map Contact.submitted_at (Pg.contact_submissions (store w))) ->
  exists rows,
    fst (contact_submissions req w) = json 200 (JArr (map Contact.json rows))
    /\ Permutation (Pg.contact_submissions (store w)) rows
    /\ StronglySorted Pg.newer rows
    /\ (forall (H : Bcrypt.Hasher) (J : Jwt.Jose) env c,
         Jwt.verify (bearer req) (JWT_SECRET env) (clock w) = Jwt.Decoded c ->
         fst (serve env GET_contact_submissions req w)
         = json 200 (JArr (map Contact.json rows))).
Proof.
  intros Hnd.
  exists (Pg.order_by_submitted_at_desc (Pg.contact_submissions (store w))).
  split; [reflexivity|]. split; [apply PgFacts.order_by_perm|]. split.
  - apply PgFacts.sorted_distinct_strict; [apply PgFacts.order_by_sorted|].
    eapply Permutation_NoDup; [|exact Hnd].
    apply Permutation_map, PgFacts.order_by_perm.
  - intros H J env c Hv. cbn [serve].
    now rewrite (verifyToken_admits env req _ w c Hv).
Qed.


End OnPg.

(* ================================================================= *)
(** ** The properties at concrete requests *)

Module Examples.
Import Js Db Server Fixture.
#[local] Existing Instance Pg.store.
#[local] Existing Instance FixtureFacts.jose.
#[local] Existing Instance FixtureFacts.hasher.

(** The token of the fixture is the one login issues at 500. *)
Lemma token_issued : token = issue_token None admin 500.
Proof. reflexivity. Qed.

(** A delete without an Authorization header stops at [verifyToken]. *)
Lemma protected_route_without_authorization_witness :
  protected DELETE_bikes_id = true
  /\ header (headers (request [] "12" [])) "authorization" = undefined
  /\ serve None DELETE_bikes_id (request [] "12" []) (world 600)
     = (json 401 (error_body "No token provided"), world 600).
Proof.
  split; [reflexivity|]. split; [reflexivity|].
  apply (protected_route_without_authorization None DELETE_bikes_id
           (request [] "12" []) (world 600)); reflexivity.
Defined.

(** A listing with an empty name is refused. *)
Lemma bike_missing_field_rejected_witness :
  let req := authorized "12" [("url", VStr "http://img/12.png"); ("name", VStr "")] in
  In "name" required_bike_fields
  /\ truthy (get (body req) "name") = false
  /\ add_bike req (world 600)
     = (json 400 (error_body "All fields are required"), world 600)
  /\ update_bike req (world 600)
     = (json 400 (error_body "All fields are required"), world 600).
Proof.
  cbv zeta. split; [simpl; tauto|]. split; [reflexivity|].
  pose proof (bike_missing_field_rejected None
                (authorized "12" [("url", VStr "http://img/12.png"); ("name", VStr "")])
                (world 600) "name") as Hw.
  destruct Hw as (Ha & Hu & _); [simpl; tauto | reflexivity |].
  split; [exact Ha | exact Hu].
Defined.

(** A bare token has no second piece; after any scheme word it is found. *)
Lemma bearer_is_second_segment_witness :
  verifyToken None (request [("authorization", token)] "" []) get_bikes (world 600)
  = (json 401 (error_body "No token provided"), world 600)
  /\ bearer (request [("authorization", "Token " ++ token)] "" []) = VStr token.
Proof.
  split.
  - apply (proj1 (bearer_is_second_segment None
                    (request [("authorization", token)] "" []) get_bikes (world 600))
             token); reflexivity.
  - apply (proj2 (bearer_is_second_segment None
                    (request [("authorization", "Token " ++ token)] "" [])
                    get_bikes (world 600))
             "Token" token ""); [reflexivity | reflexivity | reflexivity | now left].
Defined.

(** A wrong password and an unknown username are answered alike. *)
Lemma login_failures_indistinguishable_witness :
  let req1 := request [] "" [("username", VStr "admin"); ("password", VStr "guess")] in
  let req2 := request [] "" [("username", VStr "nobody"); ("password", VStr "guess")] in
  fst (run SelectAdminByUsername [get (body req1) "username"] (store (world 600)))
    = Rows [admin]
  /\ Bcrypt.compare (get (body req1) "password") (VStr (Admin.password admin))
     = Some false
  /\ fst (run SelectAdminByUsername [get (body req2) "username"] (store (world 600)))
     = Rows []
  /\ fst (login None req1 (world 600))
     = json 401 (error_body "Invalid username or password")
  /\ fst (login None req2 (world 600)) = fst (login None req1 (world 600)).
Proof.
  cbv zeta. split; [reflexivity|]. split; [reflexivity|]. split; [reflexivity|].
  apply (login_failures_indistinguishable None
           (request [] "" [("username", VStr "admin"); ("password", VStr "guess")])
           (request [] "" [("username", VStr "nobody"); ("password", VStr "guess")])
           (world 600) (world 600) admin []); reflexivity.
Defined.

(** The token issued at 500 is accepted at 600. *)
Lemma issued_token_verifies_witness :
  get (body (request [] "" [("token", VStr token)])) "token"
    = VStr (issue_token None admin 500)
  /\ 600 < 500 + Jwt.one_day
  /\ exists c,
       verify_token None (request [] "" [("token", VStr token)]) (world 600)
       = (json 200 (JObj [("valid", JBool true); ("user", Jwt.claims_json c)]),
          world 600)
       /\ Jwt.userId c = 1 /\ Jwt.username c = "Admin"
       /\ Jwt.iat c = 500 /\ Jwt.exp c = Some (500 + 86400).
Proof.
  split; [reflexivity|]. split; [reflexivity|].
  destruct (issued_token_verifies None admin 500
              (request [] "" [("token", VStr token)]) (world 600)) as [Hv _];
    [reflexivity | reflexivity | exact Hv].
Defined.

(** The token is accepted at 600 by the handler and by [verifyToken],
    refused once its day is over, and refused with the first byte of its
    signature flipped. *)
Lemma verify_token_accepts_iff_witness :
  get (body (request [] "" [("token", VStr token)])) "token" = VStr token
  /\ verify_token None (request [] "" [("token", VStr token)]) (world 600)
     = (json 200 (JObj [("valid", JBool true); ("user", Jwt.claims_json claims)]),
        world 600)
  /\ verifyToken None (authorized "" []) get_bikes (world 600)
     = get_bikes (set_user (authorized "" []) (Jwt.issued_payload claims)) (world 600)
  /\ verify_token None (request [] "" [("token", VStr token)]) (world 86900)
     = (json 401 (error_body "Invalid token"), world 86900)
  /\ verify_token None (request [] "" [("token", VStr forged)]) (world 600)
     = (json 401 (error_body "Invalid token"), world 600).
Proof.
  split; [reflexivity|].
  pose proof (verify_token_accepts_iff None (request [] "" [("token", VStr token)])
                (world 600) token eq_refl) as (_ & Hok & Hmw & Htamper).
  pose proof (verify_token_accepts_iff None (request [] "" [("token", VStr token)])
                (world 86900) token eq_refl) as (_ & Hbad & _).
  specialize (Hmw (authorized "" []) get_bikes eq_refl).
  assert (Ha : Jwt.acceptable (JWT_SECRET None) (clock (world 600)) token = true)
    by (vm_compute; reflexivity).
  assert (Hb : Jwt.acceptable (JWT_SECRET None) (clock (world 86900)) token = false)
    by (vm_compute; reflexivity).
  rewrite Ha in Hok, Hmw. rewrite Hb in Hbad.
  destruct Hok as (p & Hp & Hv). destruct Hmw as (p' & Hp' & Hv').
  assert (Hpl : Jwt.payload_of token = Some (Jwt.issued_payload claims))
    by (vm_compute; reflexivity).
  rewrite Hpl in Hp, Hp'. injection Hp as <-. injection Hp' as <-.
  split; [exact Hv|]. split; [exact Hv'|]. split; [exact Hbad|].
  apply (Htamper header_HS256 (encode_payload claims) signature
           (flip_byte 0 signature) (Jwt.issued_payload claims)); try reflexivity.
  right. exists 0%nat. split; [vm_compute; lia | reflexivity].
Defined.

(** C4, as stated, fails: the token [postdated] is well-formed, its
    signature matches the secret and its expiry has not passed at 600, yet
    the verify-token handler and [verifyToken] refuse it with 401, because
    its not-before time lies ahead. *)
Lemma postdated_token_refused :
  Jwt.well_formed postdated = true
  /\ Jwt.signature_matches (JWT_SECRET None) postdated = true
  /\ Jwt.expiry_passed 600 postdated = false
  /\ Jwt.not_yet_active 600 postdated = true
  /\ verify_token None (request [] "" [("token", VStr postdated)]) (world 600)
     = (json 401 (error_body "Invalid token"), world 600)
  /\ verifyToken None (request [("authorization", "Bearer " ++ postdated)] "" [])
       get_bikes (world 600)
     = (json 401 (error_body "Invalid token"), world 600).
Proof. repeat split; vm_compute; reflexivity. Qed.

(** The three inquiries of the catalogue come back newest first. *)
Lemma contact_submissions_newest_first_witness :
  NoDup (map Contact.submitted_at (Pg.contact_submissions (store (world 600))))
  /\ exists rows,
       fst (contact_submissions (authorized "" []) (world 600))
       = json 200 (JArr (map Contact.json rows))
       /\ Permutation (Pg.contact_submissions (store (world 600))) rows
       /\ StronglySorted Pg.newer rows.
Proof.
  assert (Hnd : NoDup (map Contact.submitted_at
                         (Pg.contact_submissions (store (world 600))))).
  { simpl. repeat constructor; simpl; intuition discriminate. }
  split; [exact Hnd|].
  destruct (contact_submissions_newest_first (authorized "" []) (world 600) Hnd)
    as (rows & Hres & Hperm & Hsorted & _).
  exists rows. auto.
Defined.


(** C1, as stated, fails: the segment [12abc] is not a number, and GET
    answers 200 with listing 12 instead of 404; likewise DELETE of [13x]
    deletes listing 13 and answers 200. *)
Lemma get_bike_non_numeric_id_found :
  Pg.integer_literal "12abc" = false
  /\ fst (get_bike (request [] "12abc" []) (world 600))
     = json 200 (JObj [("id", JNum 12); ("url", JStr "http://img/12.png");
                       ("name", JStr "Pulsar"); ("model", JStr "150");
                       ("engine", JStr "149cc"); ("fuel", JStr "petrol");
                       ("color", JStr "black"); ("warranty", JStr "1y")])
  /\ status (fst (get_bike (request [] "12abc" []) (world 600))) <> 404
  /\ Pg.integer_literal "13x" = false
  /\ fst (delete_bike (authorized "13x" []) (world 600))
     = json 200 (JObj [("message", JStr "Bike deleted successfully")])
  /\ map Bike.id (Pg.bikes (store (snd (delete_bike (authorized "13x" [])
                                                     (world 600))))) = [12].
Proof.
  split; [reflexivity|]. split; [reflexivity|]. split; [discriminate|].
  repeat split.
Qed.

(** On the reference store a segment without a leading integer is bound
    as NaN, which an integer column does not read: GET answers 500. *)
Lemma get_bike_nan_id_on_integer_column :
  parseInt "abc" = NaN
  /\ fst (get_bike (request [] "abc" []) (world 600))
     = json 500 (error_body "Server error").
Proof. split; reflexivity. Qed.

(** Numbers at the edges. [parseInt] skips U+00A0 and rounds to a double;
    a double from 1e21 on is written with an exponent; the store reads
    [0xC], [0o14] and [1_2] as 12 and refuses what is beyond 32 bits. *)
Lemma numbers_at_the_edges :
  parseInt nbsp_12 = Int 12
  /\ parseInt "9007199254740993" = Int 9007199254740992
  /\ parseInt "1_2" = Int 1
  /\ parseInt "0o14" = Int 0
  /\ parseInt "0xC" = Int 12
  /\ num_to_string (parseInt "1000000000000000000000") = "1e+21"
  /\ num_to_string (parseInt "36028797018963968") = "36028797018963970"
  /\ num_to_string (parseInt "123456789012345678901234567890")
     = "1.2345678901234568e+29"
  /\ Pg.int4in "0xC" = Some 12
  /\ Pg.int4in "0o14" = Some 12
  /\ Pg.int4in "1_2" = Some 12
  /\ Pg.int4in " -12 " = Some (-12)
  /\ Pg.int4in "2147483647" = Some 2147483647
  /\ Pg.int4in "2147483648" = None
  /\ Pg.int4in "-2147483648" = Some (-2147483648)
  /\ Pg.int4in "12abc" = None
  /\ Pg.int4in "_12" = None
  /\ Pg.int4in "1__2" = None
  /\ Pg.int4in "12_" = None
  /\ Pg.int4in "0x" = None
  /\ Pg.int4in "" = None
  /\ Pg.int4in nbsp_12 = None.
Proof. repeat split; vm_compute; reflexivity. Qed.

(** The same at the routes: GET of U+00A0 [12] finds listing 12, GET of
    an id beyond 32 bits is answered 500, and an update of [0xC] with the
    seven fields is an update of listing 12. *)
Lemma ids_at_the_edges :
  status (fst (get_bike (request [] nbsp_12 []) (world 600))) = 200
  /\ fst (get_bike (request [] "9007199254740993" []) (world 600))
     = json 500 (error_body "Server error")
  /\ fst (delete_bike (authorized "1000000000000000000000" []) (world 600))
     = json 500 (error_body "Server error")
  /\ fst (update_bike (authorized "99999999999999999999" bike_body) (world 600))
     = json 500 (error_body "Server error")
  /\ fst (update_bike (authorized "0xC" bike_body) (world 600))
     = json 200 (JObj [("message", JStr "Bike updated successfully");
                       ("bike", Bike.json (Pg.listing 12 bike_body))]).
Proof. repeat split; vm_compute; reflexivity. Qed.

(** C3 fails on the code. With no password, or one that is no string, a
    login for the username of an administrator is answered 500
    [Server error] and a login for a username that finds nobody is
    answered 401: the two answers tell whether the username exists. *)
Theorem login_without_password_tells_usernames_apart :
  fst (login None (request [] "" [("username", VStr "admin")]) (world 600))
    = json 500 (error_body "Server error")
  /\ fst (login None (request [] "" [("username", VStr "nobody")]) (world 600))
     = json 401 (error_body "Invalid username or password")
  /\ fst (login None (request [] "" [("username", VStr "admin");
                                      ("password", VNum (Int 123456))]) (world 600))
     = json 500 (error_body "Server error")
  /\ fst (login None (request [] "" [("username", VStr "nobody");
                                      ("password", VNum (Int 123456))]) (world 600))
     = json 401 (error_body "Invalid username or password").
Proof. repeat split. Qed.

(** C7 fails on the code. A login without username and password is not
    stopped by a validation: the lookup is sent to the store with
    [undefined] bound, and the request is answered as a failed login.
    With the username of an administrator and no password, the hash
    comparison is reached and throws, and the answer is 500. *)
Theorem login_without_credentials_reaches_store :
  login None (request [] "" []) (world 600)
  = (json 401 (error_body "Invalid username or password"),
     {| store := shop;
        issued := [(text SelectAdminByUsername, [undefined])];
        clock := 600 |})
  /\ login None (request [] "" [("username", VStr "admin")]) (world 600)
     = (json 500 (error_body "Server error"),
        {| store := shop;
           issued := [(text SelectAdminByUsername, [VStr "admin"])];
           clock := 600 |}).
Proof. split; reflexivity. Qed.

End Examples.

(* ================================================================= *)
(** ** Further properties of the handlers, over any store *)

Section MoreHandlers.
Import Js Db Server.

Context {S : Type} {ST : Store S} {H : Bcrypt.Hasher} {J : Jwt.Jose}.
Variable env : option string.

#[local] Abbreviation secret := (JWT_SECRET env).

(** Case analysis of a handler along its branches. *)
Ltac run_handler :=
  unfold root, login, verify_token, add_bike, update_bike, get_bikes, get_bike,
         delete_bike, submit_contact, contact_submissions, query;
  repeat match goal with
         | |- context [run ?q ?v ?s] => destruct (run q v s) as [[[|? ?]|] ?]
         | |- context [Bcrypt.compare ?a ?b] =>
             destruct (Bcrypt.compare a b) as [[|]|]
         | |- context [Jwt.verify ?a ?b ?c] => destruct (Jwt.verify a b c)
         | |- context [if ?b then _ else _] => destruct b
         end;
  cbn.

(** No handler reads [req.user]. *)
Lemma handler_ignores_user (r : Route) (req : Request) (c : Jwt.Payload) :
  handler env r (set_user req c) = handler env r req.
Proof. destruct r; reflexivity. Qed.

(** X1. The contact form is refused with 400, and nothing is sent to the
    store, as soon as one of its four fields is missing, empty or
    otherwise falsy. *)
Theorem contact_missing_field_rejected (req : Request) (w : World S) (k : string) :
  In k ["name"; "phone"; "email"; "query"] ->
  truthy (get (body req) k) = false ->
  submit_contact req w = (json 400 (error_body "All fields are required"), w).
Proof.
  cbn [In]. intros Hk Hf. unfold submit_contact.
  repeat (destruct Hk as [<-|Hk];
          [rewrite Hf; cbn [negb orb]; now rewrite ?orb_true_r|]).
  contradiction.
Qed.

(** X2. What [verifyToken] and the handlers send. A request that reaches
    its route with a body that [express.json] has parsed to an object is
    answered with one of the status codes below, whatever the store, the
    hash and the token codec do: login never answers 400, and only the
    routes with an id answer 404. (A request stopped before its route, as
    by a body that does not parse, is not followed here.) *)
Theorem route_statuses (r : Route) (req : Request) (w : World S) :
  let st := status (fst (serve env r req w)) in
  match r with
  | GET_root => st = 200
  | POST_login => st = 200 \/ st = 401 \/ st = 500
  | POST_verify_token => st = 200 \/ st = 401
  | POST_bikes => st = 201 \/ st = 400 \/ st = 401 \/ st = 500
  | PUT_bikes_id => st = 200 \/ st = 400 \/ st = 401 \/ st = 404 \/ st = 500
  | GET_bikes => st = 200 \/ st = 500
  | GET_bikes_id => st = 200 \/ st = 404 \/ st = 500
  | DELETE_bikes_id => st = 200 \/ st = 401 \/ st = 404 \/ st = 500
  | POST_contact => st = 201 \/ st = 400 \/ st = 500
  | GET_contact_submissions => st = 200 \/ st = 401 \/ st = 500
  end.
Proof.
  cbv zeta. destruct r; cbn [serve handler];
    try (match goal with
         | |- context [verifyToken env req ?h w] =>
             destruct (verifyToken_cases env req h w) as [(c & _ & ->)|[-> _]];
             [|tauto]
         end);
    run_handler; tauto.
Qed.

(** X3. A request sends at most one statement to the store: the log of issued
    statements is left as it was or extended by one entry, and the clock is
    not touched. *)
Theorem one_statement_per_request (r : Route) (req : Request) (w : World S) :
  (issued (snd (serve env r req w)) = issued w
   \/ exists q, issued (snd (serve env r req w)) = (issued w ++ [q])%list)
  /\ clock (snd (serve env r req w)) = clock w.
Proof.
  destruct r; cbn [serve handler];
    try (match goal with
         | |- context [verifyToken env req ?h w] =>
             destruct (verifyToken_cases env req h w) as [(c & _ & ->)|[_ ->]];
             [|now split; [left|]]
         end);
    run_handler; (split; [|reflexivity]); eauto.
Qed.

Lemma b64url_no_space (t : string) : Jwt.b64url t = true -> has_char " " t = false.
Proof.
  induction t as [|c r IH]; simpl; [reflexivity|].
  intros Ht. apply andb_true_iff in Ht as [Hc Hr]. rewrite (IH Hr), orb_false_r.
  destruct (Ascii.eqb_spec c " "); [subst; discriminate | reflexivity].
Qed.

(** An issued token has no space in it. *)
Lemma sign_no_space (uid : Z) (uname key : string) (d now : Z) :
  has_char " " (Jwt.sign uid uname key d now) = false.
Proof.
  rewrite JwtFacts.sign_text. cbv zeta.
  rewrite JsFacts.has_char_append. cbn [has_char].
  rewrite JsFacts.has_char_append. cbn [has_char].
  rewrite !b64url_no_space; try reflexivity.
  - apply Jwt.mac_b64url.
  - apply Jwt.encode_payload_b64url.
  - apply Jwt.header_HS256_b64url.
Qed.

(** X4. On a protected route the verdict of [jwt.verify] on the bearer token
    decides alone: when it returns claims, the answer is the handler's for
    the request as it was sent (whose claims they are plays no part);
    when it throws, the answer is 401 and the world is untouched. *)
Theorem protected_route_verdict (r : Route) (req : Request) (w : World S) :
  protected r = true ->
  match Jwt.verify (bearer req) secret (clock w) with
  | Jwt.Decoded _ => serve env r req w = handler env r req w
  | Jwt.Thrown _ =>
      serve env r req w
      = (json 401 (error_body (if truthy (bearer req) then "Invalid token"
                               else "No token provided")), w)
  end.
Proof.
  intros Hp. rewrite (serve_protected env r req Hp).
  destruct (Jwt.verify (bearer req) secret (clock w)) as [c|e] eqn:Hv.
  - rewrite (verifyToken_admits env req _ w c Hv). now rewrite handler_ignores_user.
  - unfold verifyToken. destruct (truthy (bearer req)); cbn [negb];
      [now rewrite Hv | reflexivity].
Qed.

(** X5. The token of a login opens the protected routes: sent as
    [Bearer <token>] within a day of its issue, it makes every protected
    route answer as its handler does. *)
Theorem login_token_opens_protected_routes
    (user0 : Admin.t) (issued_at : Z) (r : Route) (req : Request) (w : World S) :
  protected r = true ->
  header (headers req) "authorization"
    = VStr ("Bearer " ++ issue_token env user0 issued_at) ->
  clock w < issued_at + Jwt.one_day ->
  serve env r req w = handler env r req w.
Proof.
  intros Hp Hh Hlt.
  assert (Hb : bearer req = VStr (issue_token env user0 issued_at)).
  { unfold bearer. rewrite Hh.
    replace (truthy (VStr ("Bearer " ++ issue_token env user0 issued_at))) with true
      by reflexivity.
    unfold split_index.
    change ("Bearer " ++ issue_token env user0 issued_at)%string
      with ("Bearer" ++ String " " (issue_token env user0 issued_at))%string.
    rewrite (JsFacts.split_first " " "Bearer" _ eq_refl).
    rewrite (JsFacts.split_whole " " (issue_token env user0 issued_at)
               (sign_no_space _ _ _ _ _)).
    reflexivity. }
  rewrite (serve_protected env r req Hp).
  rewrite (verifyToken_admits env req _ w
             (Jwt.issued_payload
                {| Jwt.userId := Admin.id user0; Jwt.username := Admin.username user0;
                   Jwt.iat := issued_at; Jwt.exp := Some (issued_at + Jwt.one_day) |})).
  - now rewrite handler_ignores_user.
  - rewrite Hb. now apply JwtFacts.verify_sign.
Qed.

(** X6. The token of a login is good for exactly one day: the verify-token
    handler answers 200 for it while the clock is below issue + 86400
    seconds, and 401 [Invalid token] from that second on. *)
Theorem login_token_expiry
    (user0 : Admin.t) (issued_at : Z) (req : Request) (w : World S) :
  get (body req) "token" = VStr (issue_token env user0 issued_at) ->
  (status (fst (verify_token env req w)) = 200 <-> clock w < issued_at + 86400)
  /\ (issued_at + 86400 <= clock w ->
      verify_token env req w = (json 401 (error_body "Invalid token"), w)).
Proof.
  intros Hb.
  assert (Hexp : issued_at + 86400 <= clock w ->
            verify_token env req w = (json 401 (error_body "Invalid token"), w)).
  { intros Hle. unfold verify_token. rewrite Hb. unfold issue_token.
    rewrite JwtFacts.sign_truthy. cbn [negb].
    now rewrite (JwtFacts.verify_sign_expired _ _ _ _ _ _ Hle). }
  split; [|exact Hexp]. split.
  - intros Hst. destruct (Z.lt_ge_cases (clock w) (issued_at + 86400)) as [Hlt|Hge];
      [exact Hlt|]. rewrite (Hexp Hge) in Hst. discriminate.
  - intros Hlt. unfold verify_token. rewrite Hb. unfold issue_token.
    rewrite JwtFacts.sign_truthy. cbn [negb].
    now rewrite (JwtFacts.verify_sign _ _ _ _ _ _ Hlt).
Qed.

(** X7. The verify-token handler never touches the store or the log. A token
    that is missing, empty or otherwise falsy is answered 401
    [No token provided]; a token that is truthy but not a string (a
    number, [true], an object) is answered 401 [Invalid token]. *)
Theorem verify_token_leaves_world (req : Request) (w : World S) :
  snd (verify_token env req w) = w
  /\ (truthy (get (body req) "token") = false ->
      fst (verify_token env req w) = json 401 (error_body "No token provided"))
  /\ (truthy (get (body req) "token") = true ->
      (forall t, get (body req) "token" <> VStr t) ->
      fst (verify_token env req w) = json 401 (error_body "Invalid token")).
Proof.
  unfold verify_token. split; [|split].
  - destruct (truthy (get (body req) "token")); cbn [negb]; [|reflexivity].
    destruct (Jwt.verify _ _ _); reflexivity.
  - now intros ->.
  - intros Ht Hns. rewrite Ht. cbn [negb]. unfold Jwt.verify. rewrite Ht. cbn [negb].
    destruct (get (body req) "token"); try reflexivity. now elim (Hns s).
Qed.

(** X8. What login answers, in full. It is 200, with the token signed for the
    row found, exactly when the lookup returns a row and the hash
    comparison says yes: no token is issued otherwise. It is 401 exactly
    when the lookup returns no row or the comparison says no, and 500
    exactly when the lookup throws or the comparison throws, which the
    comparison does when the password is not a string. *)
Theorem login_answers (req : Request) (w : World S) :
  let found := fst (run SelectAdminByUsername [get (body req) "username"] (store w)) in
  let checked user0 :=
    Bcrypt.compare (get (body req) "password") (VStr (Admin.password user0)) in
  (status (fst (login env req w)) = 200
   <-> exists user0 others, found = Rows (user0 :: others) /\ checked user0 = Some true)
  /\ (forall user0 others,
        found = Rows (user0 :: others) -> checked user0 = Some true ->
        fst (login env req w)
        = json 200 (JObj [("message", JStr "Login successful");
                          ("token", JStr (issue_token env user0 (clock w)))]))
  /\ (status (fst (login env req w)) = 401
      <-> found = Rows []
          \/ exists user0 others, found = Rows (user0 :: others)
                                  /\ checked user0 = Some false)
  /\ (status (fst (login env req w)) = 500
      <-> found = Throws
          \/ exists user0 others, found = Rows (user0 :: others)
                                  /\ checked user0 = None).
Proof.
  cbv zeta. unfold login, query.
  destruct (run SelectAdminByUsername _ (store w)) as [[[|user0 others]|] s']; cbn [fst].
  - repeat split; try discriminate; auto;
      try (intros (u & o & Hr & _); discriminate);
      try (intros [Hr|(u & o & Hr & _)]; discriminate).
  - destruct (Bcrypt.compare _ _) as [[|]|] eqn:Hc; cbn [fst status json];
      repeat split; try discriminate; eauto;
      try (intros (u & o & [= <- <-] & Hc'); congruence);
      try (intros [Hr|(u & o & [= <- <-] & Hc')]; congruence);
      try (intros u o [= <- <-] Hc'; (reflexivity || congruence)).
  - repeat split; try discriminate; auto;
      try (intros (u & o & Hr & _); discriminate);
      try (intros [Hr|(u & o & Hr & _)]; discriminate).
Qed.

(** The token of a header [Bearer t], when [t] has no space in it. *)
Lemma bearer_of_header (req : Request) (t : string) :
  header (headers req) "authorization" = VStr ("Bearer " ++ t) ->
  has_char " " t = false ->
  bearer req = VStr t.
Proof.
  intros Hh Ht. unfold bearer. rewrite Hh.
  replace (truthy (VStr ("Bearer " ++ t))) with true by reflexivity.
  unfold split_index.
  change ("Bearer " ++ t)%string with ("Bearer" ++ String " " t)%string.
  rewrite (JsFacts.split_first " " "Bearer" _ eq_refl).
  now rewrite (JsFacts.split_whole " " t Ht).
Qed.

(** X20. The verify-token route and [verifyToken] agree on every token: a
    token without a space that the verify-token handler answers 200 for
    makes every protected route, when it is sent as [Bearer <token>] at
    the same time, answer as its handler does; a token that the handler
    refuses is refused on every protected route, with 401 and the same
    body, and the world is left alone. *)
Theorem accepted_token_opens_protected_routes
    (t : string) (r : Route) (req_v req : Request) (w : World S) :
  protected r = true ->
  has_char " " t = false ->
  get (body req_v) "token" = VStr t ->
  header (headers req) "authorization" = VStr ("Bearer " ++ t) ->
  (status (fst (verify_token env req_v w)) = 200 ->
   serve env r req w = handler env r req w)
  /\ (status (fst (verify_token env req_v w)) <> 200 ->
      serve env r req w = verify_token env req_v w
      /\ status (fst (serve env r req w)) = 401
      /\ snd (serve env r req w) = w).
Proof.
  intros Hp Ht Hb Hh.
  pose proof (bearer_of_header req t Hh Ht) as Hbearer.
  pose proof (verify_token_on_string env req_v w t Hb) as Hv.
  pose proof (verifyToken_on_string env req (handler env r) w t Hbearer) as Hm.
  rewrite (serve_protected env r req Hp).
  destruct (Jwt.acceptable secret (clock w) t).
  - destruct Hv as (p & _ & ->). destruct Hm as (p' & _ & ->).
    split; [intros _; now rewrite handler_ignores_user | intros Hst; now elim Hst].
  - rewrite Hv, Hm. split; [discriminate | intros _; now repeat split].
Qed.

End MoreHandlers.

(* ================================================================= *)
(** ** Further properties on the reference store *)

Module PgTables.
Import Js Pg.

Lemma set_bikes_same (db : Pg.t) : set_bikes db (bikes db) (bikes_id_seq db) = db.
Proof. now destruct db. Qed.

Lemma filter_none_map (z : Z) (row : Bike.t) (l : list Bike.t) :
  filter (has_id z) l = [] ->
  map (fun b => if has_id z b then row else b) l = l.
Proof.
  induction l as [|b l IH]; simpl; [reflexivity|].
  destruct (has_id z b); [discriminate|]. intros Hl. now rewrite (IH Hl).
Qed.

Lemma filter_none_keep (z : Z) (l : list Bike.t) :
  filter (has_id z) l = [] ->
  filter (fun b => negb (has_id z b)) l = l.
Proof.
  induction l as [|b l IH]; simpl; [reflexivity|].
  destruct (has_id z b); [discriminate|]. intros Hl. simpl. now rewrite (IH Hl).
Qed.

Lemma filter_after_delete (z : Z) (l : list Bike.t) :
  filter (has_id z) (filter (fun b => negb (has_id z b)) l) = [].
Proof.
  induction l as [|b l IH]; simpl; [reflexivity|].
  destruct (has_id z b) eqn:Hb; simpl; [exact IH|]. now rewrite Hb.
Qed.



Lemma ids_after_update (z : Z) (row : Bike.t) (l : list Bike.t) :
  Bike.id row = z ->
  map Bike.id (map (fun b => if has_id z b then row else b) l) = map Bike.id l.
Proof.
  intros Hrow. induction l as [|b l IH]; simpl; [reflexivity|].
  rewrite IH. unfold has_id. destruct (Z.eqb_spec (Bike.id b) z); congruence.
Qed.

(** A delete leaves the remaining ids distinct. *)
Lemma ids_after_delete (z : Z) (bs : list Bike.t) :
  NoDup (map Bike.id bs) ->
  NoDup (map Bike.id (filter (fun b => negb (has_id z b)) bs)).
Proof.
  induction bs as [|b bs IH]; intros Hnd; [exact Hnd|].
  apply NoDup_cons_iff in Hnd as [Hfresh Hrest]. cbn [filter].
  destruct (negb (has_id z b)); [|now apply IH].
  cbn [map]. apply NoDup_cons; [|now apply IH].
  intros Hin. apply Hfresh.
  apply in_map_iff in Hin as (b' & Hid & Hin).
  apply filter_In in Hin as [Hin _].
  rewrite <- Hid. now apply in_map.
Qed.

Lemma truthy_text (v : JsVal) : truthy v = true -> text_of v <> None.
Proof.
  destruct v as [| |[|]|[|z|neg|text]|s|t]; simpl; (discriminate || intros; discriminate).
Qed.

(** With all seven fields truthy, the row written has no NULL field. *)
Lemma listing_complete (z : Z) (b : Object) :
  Server.bike_field_missing b = false -> bike_complete (listing z b).
Proof.
  unfold Server.bike_field_missing. intros Hm.
  repeat (apply orb_false_iff in Hm as [Hm ?]).
  unfold bike_complete, listing; cbn.
  repeat split; apply truthy_text; now apply negb_false_iff.
Qed.


End PgTables.

Section MoreOnPg.
Import Js Db Server.
#[local] Existing Instance Pg.store.

Context {H : Bcrypt.Hasher} {J : Jwt.Jose}.
Variable env : option string.

Lemma add_bike_on_pg (req : Request) (w : World Pg.t) :
  bike_field_missing (body req) = false ->
  let row := Pg.listing (Pg.bikes_id_seq (store w)) (body req) in
  add_bike req w
  = (json 201 (JObj [("message", JStr "Bike added successfully");
                     ("bike", Bike.json row)]),
     {| store := Pg.set_bikes (store w) (Pg.bikes (store w) ++ [row])
                              (Pg.bikes_id_seq (store w) + 1);
        issued := issued w ++ [(text InsertBike, bike_fields (body req))];
        clock := clock w |}).
Proof. intros Hm. unfold add_bike, query. rewrite Hm. reflexivity. Qed.

Lemma update_bike_on_pg (req : Request) (w : World Pg.t) (z : Z) :
  bike_field_missing (body req) = false ->
  Pg.int4in (id (params req)) = Some z ->
  let row := Pg.listing z (body req) in
  update_bike req w
  = (match filter (Pg.has_id z) (Pg.bikes (store w)) with
     | [] => json 404 (error_body "Bike not found")
     | _ :: _ => json 200 (JObj [("message", JStr "Bike updated successfully");
                                 ("bike", Bike.json row)])
     end,
     {| store := Pg.set_bikes (store w)
                   (map (fun b => if Pg.has_id z b then row else b)
                        (Pg.bikes (store w)))
                   (Pg.bikes_id_seq (store w));
        issued := issued w
                  ++ [(text UpdateBike,
                       (bike_fields (body req) ++ [VStr (id (params req))])%list)];
        clock := clock w |}).
Proof.
  intros Hm Hi. unfold update_bike, query. rewrite Hm.
  unfold bike_fields. cbn [app run Pg.store Pg.exec].
  unfold Pg.id_param. cbn [Pg.text_of]. rewrite Hi.
  destruct (filter (Pg.has_id z) (Pg.bikes (store w))); reflexivity.
Qed.

Lemma submit_contact_on_pg (req : Request) (w : World Pg.t) :
  Forall (fun k => truthy (get (body req) k) = true)
         ["name"; "phone"; "email"; "query"] ->
  let row := Pg.submission (Pg.contact_submissions_id_seq (store w))
                           (Pg.now (store w)) (body req) in
  submit_contact req w
  = (json 201 (JObj [("message", JStr "Contact form submitted successfully");
                     ("submission", Contact.json row)]),
     {| store := Pg.set_contact_submissions (store w)
                   (Pg.contact_submissions (store w) ++ [row])
                   (Pg.contact_submissions_id_seq (store w) + 1);
        issued := issued w
                  ++ [(text InsertContact,
                       [get (body req) "name"; get (body req) "phone";
                        get (body req) "email"; get (body req) "query"])];
        clock := clock w |}).
Proof.
  intros Hf. inversion Hf as [|k1 l1 H1 Hf1]; subst.
  inversion Hf1 as [|k2 l2 H2 Hf2]; subst.
  inversion Hf2 as [|k3 l3 H3 Hf3]; subst.
  inversion Hf3 as [|k4 l4 H4 _]; subst.
  unfold submit_contact, query. rewrite H1, H2, H3, H4. reflexivity.
Qed.

Lemma handler_change (r : Route) (req : Request) (w : World Pg.t) :
  Pg.Change (store w) (status (fst (handler env r req w)))
         (store (snd (handler env r req w))).
Proof.
  destruct r; cbn [handler].
  - constructor.
  - unfold login, query. cbn [run Pg.store Pg.exec].
    destruct (Pg.text_of (get (body req) "username")) as [name|]; cbn;
      [|constructor].
    destruct (filter _ (Pg.admins (store w))) as [|user0 rest]; [constructor|].
    destruct (Bcrypt.compare _ _) as [[|]|]; constructor.
  - unfold verify_token. destruct (negb _); [constructor|].
    destruct (Jwt.verify _ _ _); constructor.
  - destruct (bike_field_missing (body req)) eqn:Hm.
    + unfold add_bike. rewrite Hm. constructor.
    + rewrite (add_bike_on_pg req w Hm). cbn.
      apply Pg.BikeCreated; [reflexivity | now apply PgTables.listing_complete | reflexivity].
  - destruct (bike_field_missing (body req)) eqn:Hm.
    + unfold update_bike. rewrite Hm. constructor.
    + destruct (Pg.int4in (id (params req))) as [z|] eqn:Hi.
      * rewrite (update_bike_on_pg req w z Hm Hi). cbn.
        destruct (filter (Pg.has_id z) (Pg.bikes (store w))) eqn:Hf.
        -- rewrite (PgTables.filter_none_map _ _ _ Hf), PgTables.set_bikes_same.
           constructor.
        -- apply Pg.BikeUpdated;
             [reflexivity | now apply PgTables.listing_complete | reflexivity].
      * unfold update_bike, query. rewrite Hm.
        unfold bike_fields. cbn [app run Pg.store Pg.exec].
        unfold Pg.id_param. cbn [Pg.text_of]. rewrite Hi. constructor.
  - unfold get_bikes, query. cbn. constructor.
  - unfold get_bike, query. cbn [run Pg.store Pg.exec].
    destruct (Pg.id_param _); cbn; try constructor.
    destruct (filter _ _); constructor.
  - rewrite delete_bike_on_pg. cbv zeta.
    destruct (parseInt (id (params req))) as [|z|neg|text]; cbn; try constructor.
    destruct (Pg.in_int4 z); cbn; [|constructor].
    destruct (filter (Pg.has_id z) (Pg.bikes (store w))) eqn:Hf.
    + rewrite (PgTables.filter_none_keep _ _ Hf), PgTables.set_bikes_same.
      constructor.
    + now apply Pg.BikeDeleted.
  - destruct (truthy (get (body req) "name")) eqn:H1;
    [destruct (truthy (get (body req) "phone")) eqn:H2;
     [destruct (truthy (get (body req) "email")) eqn:H3;
      [destruct (truthy (get (body req) "query")) eqn:H4|]|]|];
    try (unfold submit_contact; rewrite ?H1, ?H2, ?H3, ?H4; cbn; apply Pg.Unchanged).
    rewrite submit_contact_on_pg by (repeat constructor; assumption). cbn.
    apply Pg.ContactCreated; [reflexivity|].
    unfold Pg.contact_complete, Pg.submission; cbn.
    repeat split; now apply PgTables.truthy_text.
  - unfold contact_submissions, query. cbn. constructor.
Qed.

Lemma serve_change (r : Route) (req : Request) (w : World Pg.t) :
  Pg.Change (store w) (status (fst (serve env r req w)))
         (store (snd (serve env r req w))).
Proof.
  destruct (protected r) eqn:Hp.
  - rewrite (serve_protected env r req Hp).
    destruct (verifyToken_cases env req (handler env r) w)
      as [(c & _ & ->)|[_ ->]]; [|constructor].
    rewrite handler_ignores_user. apply handler_change.
  - replace (serve env r req) with (handler env r req)
      by (destruct r; (reflexivity || discriminate)).
    apply handler_change.
Qed.

(** X9. A request answered with an error status (400 and above) leaves the
    tables of the reference store exactly as they were, on every route. *)
Theorem error_answers_leave_tables (r : Route) (req : Request) (w : World Pg.t) :
  400 <= status (fst (serve env r req w)) ->
  store (snd (serve env r req w)) = store w.
Proof.
  intros Hst. destruct (serve_change r req w); (reflexivity || lia).
Qed.

(** X10. The validation keeps NULL out of the tables: if no listing and no
    contact submission has a NULL field before a request, none has one
    after it, whatever the route and the request. *)
Theorem tables_stay_complete (r : Route) (req : Request) (w : World Pg.t) :
  Pg.complete (store w) -> Pg.complete (store (snd (serve env r req w))).
Proof.
  intros [Hb Hc].
  destruct (serve_change r req w) as [|row _ Hrow _|z row _ Hrow _|z _|row _ Hrow];
    unfold Pg.complete; cbn; split; trivial.
  - apply Forall_app. split; [exact Hb | now constructor].
  - apply Forall_map. eapply Forall_impl; [|exact Hb].
    intros b Hcb. now destruct (Pg.has_id z b).
  - rewrite Forall_forall in *. intros b Hin.
    apply filter_In in Hin as [Hin _]. now apply Hb.
  - apply Forall_app. split; [exact Hc | now constructor].
Qed.

(** X11. The ids of the listings stay distinct and below the sequence: a
    request never gives a listing the id of another one, and an update
    never changes an id. *)
Theorem listing_ids_stay_in_order (r : Route) (req : Request) (w : World Pg.t) :
  Pg.ids_in_order (store w) -> Pg.ids_in_order (store (snd (serve env r req w))).
Proof.
  intros [Hnd Hlt].
  destruct (serve_change r req w) as [|row _ _ Hid|z row _ _ Hid|z _|row _ _];
    unfold Pg.ids_in_order; cbn; try (split; assumption).
  - split.
    + rewrite map_app. cbn. apply NoDup_app; [exact Hnd | repeat constructor; auto |].
      intros i Hi [<-|[]]. rewrite Forall_forall in Hlt.
      apply in_map_iff in Hi as (b & Hb & Hin). specialize (Hlt b Hin). lia.
    + apply Forall_app. split.
      * eapply Forall_impl; [|exact Hlt]. cbn. intros; lia.
      * repeat constructor. lia.
  - split.
    + now rewrite (PgTables.ids_after_update z row _ Hid).
    + apply Forall_map. eapply Forall_impl; [|exact Hlt].
      cbn. intros b Hb. unfold Pg.has_id.
      destruct (Z.eqb_spec (Bike.id b) z); [lia | exact Hb].
  - split.
    + now apply PgTables.ids_after_delete.
    + rewrite Forall_forall in *. intros b Hin.
      apply filter_In in Hin as [Hin _]. now apply Hlt.
Qed.

(** X12. Deleting a listing twice: after a delete answered 200, the same
    delete is answered 404 and changes nothing, and the listing is no
    longer found by GET; the tables have lost the listings with the parsed
    id and nothing else. *)
Theorem delete_twice (req : Request) (w : World Pg.t) :
  status (fst (delete_bike req w)) = 200 ->
  let w' := snd (delete_bike req w) in
  fst (delete_bike req w') = json 404 (error_body "Bike not found")
  /\ store (snd (delete_bike req w')) = store w'
  /\ fst (get_bike req w') = json 404 (error_body "Bike not found")
  /\ exists z, parseInt (id (params req)) = Int z
               /\ Pg.bikes (store w')
                  = filter (fun b => negb (Pg.has_id z b)) (Pg.bikes (store w)).
Proof.
  cbv zeta. rewrite get_bike_on_pg, !delete_bike_on_pg. cbv zeta.
  destruct (parseInt (id (params req))) as [|z|neg|text]; try discriminate.
  destruct (Pg.in_int4 z); [|discriminate].
  cbn. intros _. rewrite !PgTables.filter_after_delete. cbn.
  rewrite (PgTables.filter_none_keep z _ (PgTables.filter_after_delete z _)).
  repeat split. now exists z.
Qed.




(** X16. Login does not tell the cases of ASCII letters in a username apart:
    two logins whose usernames differ only in case, with the same
    password, get the same answer. *)
Theorem login_ignores_case (req1 req2 : Request) (w : World Pg.t) (u1 u2 : string) :
  get (body req1) "username" = VStr u1 ->
  get (body req2) "username" = VStr u2 ->
  Pg.lower u1 = Pg.lower u2 ->
  get (body req1) "password" = get (body req2) "password" ->
  fst (login env req1 w) = fst (login env req2 w).
Proof.
  intros H1 H2 Hl Hp. unfold login, query. rewrite H1, H2, Hp.
  cbn [run Pg.store Pg.exec Pg.text_of]. rewrite Hl.
  destruct (filter _ (Pg.admins (store w))) as [|user0 rest]; [reflexivity|].
  destruct (Bcrypt.compare _ _) as [[|]|]; reflexivity.
Qed.


(** X18. The routes that only read (the liveness route, login, verify-token,
    the two listing reads and the list of contact submissions) never
    change the tables, whatever they answer. *)
Theorem reading_routes_leave_tables (r : Route) (req : Request) (w : World Pg.t) :
  In r [GET_root; POST_login; POST_verify_token; GET_bikes; GET_bikes_id;
        GET_contact_submissions] ->
  store (snd (serve env r req w)) = store w.
Proof.
  cbn [In]. intros [<-|[<-|[<-|[<-|[<-|[<-|[]]]]]]]; cbn [serve handler].
  - reflexivity.
  - unfold login, query. cbn [run Pg.store Pg.exec].
    destruct (Pg.text_of (get (body req) "username")) as [name|]; cbn;
      [|reflexivity].
    destruct (filter _ (Pg.admins (store w))) as [|user0 rest]; [reflexivity|].
    destruct (Bcrypt.compare _ _) as [[|]|]; reflexivity.
  - unfold verify_token. destruct (negb _); [reflexivity|].
    destruct (Jwt.verify _ _ _); reflexivity.
  - reflexivity.
  - unfold get_bike, query. cbn [run Pg.store Pg.exec].
    destruct (Pg.id_param _); cbn; try reflexivity.
    destruct (filter _ _); reflexivity.
  - destruct (verifyToken_cases env req contact_submissions w)
      as [(c & _ & ->)|[_ ->]]; reflexivity.
Qed.


End MoreOnPg.

Section Secret.
Import Js Db Server.

Context {S : Type} {ST : Store S} {J : Jwt.Jose}.

(** X19. Without a secret in the environment, or with an empty one, the
    process signs and verifies with the fallback [default_secret_key]: a
    token signed under that key by anyone, for any id and username, is
    accepted by the verify-token handler until it expires. *)
Theorem fallback_secret_accepts_its_tokens
    (env : option string) (uid : Z) (uname : string) (d issued_at : Z)
    (req : Request) (w : World S) :
  env = None \/ env = Some "" ->
  get (body req) "token"
    = VStr (Jwt.sign uid uname "default_secret_key" d issued_at) ->
  clock w < issued_at + d ->
  verify_token env req w
  = (json 200 (JObj [("valid", JBool true);
                     ("user", Jwt.claims_json
                                {| Jwt.userId := uid; Jwt.username := uname;
                                   Jwt.iat := issued_at;
                                   Jwt.exp := Some (issued_at + d) |})]), w).
Proof.
  intros Henv Hb Hlt. unfold verify_token. rewrite Hb, JwtFacts.sign_truthy.
  cbn [negb].
  replace (JWT_SECRET env) with "default_secret_key"
    by (destruct Henv as [-> | ->]; reflexivity).
  now rewrite (JwtFacts.verify_sign _ _ _ _ _ _ Hlt).
Qed.

End Secret.

(* ================================================================= *)
(** ** The further properties at concrete requests *)

Module MoreExamples.
Import Js Db Server Fixture.
#[local] Existing Instance Pg.store.
#[local] Existing Instance FixtureFacts.jose.
#[local] Existing Instance FixtureFacts.hasher.


(** A contact form without a phone number is refused. *)
Lemma contact_missing_field_rejected_witness :
  let req := request [] "" [("name", VStr "Om"); ("email", VStr "o@x");
                            ("query", VStr "test ride?")] in
  In "phone" ["name"; "phone"; "email"; "query"]
  /\ truthy (get (body req) "phone") = false
  /\ submit_contact req (world 600)
     = (json 400 (error_body "All fields are required"), world 600).
Proof.
  cbv zeta. split; [simpl; tauto|]. split; [reflexivity|].
  apply (contact_missing_field_rejected
           (request [] "" [("name", VStr "Om"); ("email", VStr "o@x");
                           ("query", VStr "test ride?")])
           (world 600) "phone"); [simpl; tauto | reflexivity].
Defined.

(** With the token of the fixture a delete is the handler's delete. *)
Lemma protected_route_verdict_witness :
  protected DELETE_bikes_id = true
  /\ serve None DELETE_bikes_id (authorized "13" []) (world 600)
     = delete_bike (authorized "13" []) (world 600).
Proof.
  split; [reflexivity|].
  pose proof (protected_route_verdict None DELETE_bikes_id (authorized "13" [])
                (world 600) eq_refl) as Hv.
  exact Hv.
Defined.

Lemma login_token_opens_protected_routes_witness :
  protected GET_contact_submissions = true
  /\ header (headers (authorized "" [])) "authorization"
     = VStr ("Bearer " ++ issue_token None admin 500)
  /\ 600 < 500 + Jwt.one_day
  /\ serve None GET_contact_submissions (authorized "" []) (world 600)
     = contact_submissions (authorized "" []) (world 600).
Proof.
  split; [reflexivity|]. split; [reflexivity|]. split; [reflexivity|].
  apply (login_token_opens_protected_routes None admin 500 GET_contact_submissions
           (authorized "" []) (world 600)); reflexivity.
Defined.

(** The token issued at 500 is refused at 86900, the second its day ends. *)
Lemma login_token_expiry_witness :
  get (body (request [] "" [("token", VStr token)])) "token"
    = VStr (issue_token None admin 500)
  /\ 500 + 86400 <= clock (world 86900)
  /\ verify_token None (request [] "" [("token", VStr token)]) (world 86900)
     = (json 401 (error_body "Invalid token"), world 86900).
Proof.
  split; [reflexivity|]. split; [cbn; lia|].
  destruct (login_token_expiry None admin 500
              (request [] "" [("token", VStr token)]) (world 86900)) as [_ Hexp];
    [reflexivity|].
  apply Hexp. cbn; lia.
Defined.

(** An update of [12abc] is answered 500 and the tables are as before. *)
Lemma error_answers_leave_tables_witness :
  400 <= status (fst (serve None PUT_bikes_id (authorized "12abc" bike_body)
                        (world 600)))
  /\ store (snd (serve None PUT_bikes_id (authorized "12abc" bike_body) (world 600)))
     = shop.
Proof.
  split; [vm_compute; discriminate|].
  apply (error_answers_leave_tables None PUT_bikes_id
           (authorized "12abc" bike_body) (world 600)).
  vm_compute; discriminate.
Defined.

Lemma shop_complete : Pg.complete shop.
Proof.
  split; repeat constructor; discriminate.
Defined.

Lemma shop_ids_in_order : Pg.ids_in_order shop.
Proof.
  split; [|repeat constructor].
  cbn. repeat constructor; cbn; intuition discriminate.
Defined.

Lemma tables_stay_complete_witness :
  Pg.complete (store (world 600))
  /\ Pg.complete (store (snd (serve None POST_bikes (authorized "" bike_body)
                                (world 600)))).
Proof.
  split; [exact shop_complete|].
  apply (tables_stay_complete None POST_bikes (authorized "" bike_body) (world 600)).
  exact shop_complete.
Defined.

Lemma listing_ids_stay_in_order_witness :
  Pg.ids_in_order (store (world 600))
  /\ Pg.ids_in_order (store (snd (serve None POST_bikes (authorized "" bike_body)
                                    (world 600)))).
Proof.
  split; [exact shop_ids_in_order|].
  apply (listing_ids_stay_in_order None POST_bikes (authorized "" bike_body)
           (world 600)).
  exact shop_ids_in_order.
Defined.

(** Listing 13 is deleted once; the second delete finds nothing. *)
Lemma delete_twice_witness :
  status (fst (delete_bike (authorized "13" []) (world 600))) = 200
  /\ fst (delete_bike (authorized "13" [])
            (snd (delete_bike (authorized "13" []) (world 600))))
     = json 404 (error_body "Bike not found").
Proof.
  split; [reflexivity|].
  apply (delete_twice (authorized "13" []) (world 600)). reflexivity.
Defined.




(** [ADMIN] and [admin] with the same wrong password are answered alike. *)
Lemma login_ignores_case_witness :
  let req1 := request [] "" [("username", VStr "ADMIN"); ("password", VStr "guess")] in
  let req2 := request [] "" [("username", VStr "admin"); ("password", VStr "guess")] in
  get (body req1) "username" = VStr "ADMIN"
  /\ get (body req2) "username" = VStr "admin"
  /\ Pg.lower "ADMIN" = Pg.lower "admin"
  /\ fst (login None req1 (world 600)) = fst (login None req2 (world 600)).
Proof.
  cbv zeta. split; [reflexivity|]. split; [reflexivity|]. split; [reflexivity|].
  apply (login_ignores_case None
           (request [] "" [("username", VStr "ADMIN"); ("password", VStr "guess")])
           (request [] "" [("username", VStr "admin"); ("password", VStr "guess")])
           (world 600) "ADMIN" "admin"); reflexivity.
Defined.


(** A failed login leaves the tables alone. *)
Lemma reading_routes_leave_tables_witness :
  In POST_login [GET_root; POST_login; POST_verify_token; GET_bikes; GET_bikes_id;
                 GET_contact_submissions]
  /\ store (snd (serve None POST_login
                   (request [] "" [("username", VStr "admin")]) (world 600)))
     = shop.
Proof.
  split; [simpl; tauto|].
  apply (reading_routes_leave_tables None POST_login
           (request [] "" [("username", VStr "admin")]) (world 600)).
  simpl; tauto.
Defined.

(** A process started with an empty JWT_SECRET accepts a token signed
    under the fallback key for an id and a name of the signer's choice. *)
Lemma fallback_secret_accepts_its_tokens_witness :
  let forged_token := Jwt.sign 7 "mallory" "default_secret_key" 3600 500 in
  (Some "" = None \/ Some "" = Some "")
  /\ 600 < 500 + 3600
  /\ verify_token (Some "") (request [] "" [("token", VStr forged_token)]) (world 600)
     = (json 200 (JObj [("valid", JBool true);
                        ("user", Jwt.claims_json
                                   {| Jwt.userId := 7; Jwt.username := "mallory";
                                      Jwt.iat := 500; Jwt.exp := Some 4100 |})]),
        world 600).
Proof.
  cbv zeta. split; [now right|]. split; [reflexivity|].
  apply (fallback_secret_accepts_its_tokens (Some "") 7 "mallory" 3600 500
           (request [] "" [("token", VStr (Jwt.sign 7 "mallory" "default_secret_key"
                                                    3600 500))])
           (world 600)); [now right | reflexivity | reflexivity].
Defined.

(** The token of the fixture, accepted by the verify-token handler at
    600, opens the delete route at 600. *)
Lemma accepted_token_opens_protected_routes_witness :
  protected DELETE_bikes_id = true
  /\ has_char " " token = false
  /\ get (body (request [] "" [("token", VStr token)])) "token" = VStr token
  /\ header (headers (authorized "13" [])) "authorization"
     = VStr ("Bearer " ++ token)
  /\ status (fst (verify_token None (request [] "" [("token", VStr token)])
                    (world 600))) = 200
  /\ serve None DELETE_bikes_id (authorized "13" []) (world 600)
     = delete_bike (authorized "13" []) (world 600).
Proof.
  assert (Hst : status (fst (verify_token None (request [] "" [("token", VStr token)])
                               (world 600))) = 200)
    by (vm_compute; reflexivity).
  assert (Hsp : has_char " " token = false) by (vm_compute; reflexivity).
  split; [reflexivity|]. split; [exact Hsp|]. split; [reflexivity|].
  split; [reflexivity|]. split; [exact Hst|].
  apply (proj1 (accepted_token_opens_protected_routes None token DELETE_bikes_id
                  (request [] "" [("token", VStr token)]) (authorized "13" [])
                  (world 600) eq_refl Hsp eq_refl eq_refl)).
  exact Hst.
Defined.

End MoreExamples.
